(** * SmartCart-Web: a shallow embedding of the recommendation engine and
      of the Streamlit glue that drives it.

    Sources: [src/app/ui_components.py], [src/app/streamlit_app.py].
    The engine modules [data_loader] and [recommender] are imported by the
    application but their code is not part of the tree; the definitions
    that stand for them are marked [Modelled from the spec:]. *)

From Stdlib Require Import ZArith QArith Ascii String Lia.
From stdpp Require Import base list gmap strings.

Open Scope string_scope.

(* ================================================================== *)
(** ** Python string helpers *)
(* ================================================================== *)

Module PyStr.

(** [str.lower] on the ASCII range: 'A'..'Z' are mapped to 'a'..'z',
    every other character is kept. *)
Definition lower_char (c : ascii) : ascii :=
  let n := nat_of_ascii c in
  if (65 <=? n)%nat && (n <=? 90)%nat then ascii_of_nat (n + 32) else c.

Fixpoint lower (s : string) : string :=
  match s with
  | EmptyString => EmptyString
  | String c s' => String (lower_char c) (lower s')
  end.

(** [needle in hay] for two strings: a substring test. *)
Fixpoint starts_with (needle hay : string) : bool :=
  match needle, hay with
  | EmptyString, _ => true
  | String c n', String d h' => Ascii.eqb c d && starts_with n' h'
  | String _ _, EmptyString => false
  end.

Fixpoint contains (needle hay : string) : bool :=
  starts_with needle hay ||
  match hay with
  | EmptyString => false
  | String _ h' => contains needle h'
  end.

(** [l[:k]] for a Python int [k]: a negative bound counts from the end. *)
Definition slice_upto {A} (l : list A) (k : Z) : list A :=
  if (0 <=? k)%Z then take (Z.to_nat k) l
  else take (Z.to_nat (Z.of_nat (length l) + k)) l.

End PyStr.

(* ================================================================== *)
(** ** [ui_components.py] *)
(* ================================================================== *)

Module UI.
Import PyStr.

(** The icons returned by [icon_for_item] (UTF-8 encoded emoji). *)
Definition icon_wing   : string := "🍗".
Definition icon_fries  : string := "🍟".
Definition icon_dip    : string := "🥣".
Definition icon_burger : string := "🍔".
Definition icon_corn   : string := "🌽".
Definition icon_drink  : string := "🥤".
Definition icon_dish   : string := "🍽️".

(** [icon_for_item(name)], lines 11-25. *)
Definition icon_for_item (name : string) : string :=
  let n := lower name in
  if contains "wing" n then icon_wing
  else if contains "fries" n || contains "fry" n then icon_fries
  else if contains "dip" n || contains "sauce" n || contains "ranch" n then icon_dip
  else if contains "burger" n || contains "sandwich" n then icon_burger
  else if contains "corn" n then icon_corn
  else if contains "drink" n || contains "cola" n || contains "juice" n then icon_drink
  else icon_dish.

(** The priority table as the claim words it: an ordered list of keyword
    groups, the first group with a keyword in the lowered name wins. *)
Definition icon_rules : list (list string * string) :=
  [ (["wing"], icon_wing);
    (["fries"; "fry"], icon_fries);
    (["dip"; "sauce"; "ranch"], icon_dip);
    (["burger"; "sandwich"], icon_burger);
    (["corn"], icon_corn);
    (["drink"; "cola"; "juice"], icon_drink) ].

Definition icon_by_rules (name : string) : string :=
  let n := lower name in
  match List.find (fun r => existsb (fun k => contains k n) (fst r)) icon_rules with
  | Some r => snd r
  | None => icon_dish
  end.

(** Output of the Streamlit calls: each [st.markdown] call is one entry. *)
Definition markdown_log := list string.

(** The markup of one badge, line 36. *)
Definition badge_of (it : string) : string :=
  "<span class='badge'>" ++ icon_for_item it ++ " " ++ it ++ "</span>".

(** [topbar_badges(items, limit=3)], lines 30-37. *)
Definition topbar_badges (items : list string) (limit : Z) : markdown_log :=
  let shown := slice_upto items limit in
  match shown with
  | [] => []
  | _ =>
      "<div class='badge-bar'>" ::
      app (map badge_of shown) ["</div>"]
  end.

(** The markup emitted for a list of displayed items, as the claim words it:
    nothing for an empty list, otherwise the bar around one badge per item. *)
Definition badges_markup (shown : list string) : markdown_log :=
  if decide (shown = []) then []
  else "<div class='badge-bar'>" :: app (map badge_of shown) ["</div>"].

End UI.

(* ================================================================== *)
(** ** The engine: [data_loader] and [recommender] *)
(* ================================================================== *)

Module Engine.
Import PyStr.

Definition item := string.
Definition order := list item.

(** *** Co-occurrence Builder (spec 4.3) *)

(** Modelled from the spec: the unordered-pair key of the sparse pair
    accumulator of [build_normalized_comatrix] ("canonicalized unordered
    item-pair identifiers (e.g., sorted index pair)"): the pair in
    ascending string order. *)
Definition upair (a b : item) : item * item :=
  if String.ltb a b then (a, b) else (b, a).

(** [itertools.combinations(s, 2)]: every pair of positions i < j. *)
Fixpoint combinations2 {A} (l : list A) : list (A * A) :=
  match l with
  | [] => []
  | x :: xs => map (fun y => (x, y)) xs ++ combinations2 xs
  end.

(** [counter[k] += 1] for every [k] of [ks], on a [Counter]. *)
Definition incr_all {K} `{Countable K} (m : gmap K nat) (ks : list K) : gmap K nat :=
  foldl (fun m k => <[k := S (default 0 (m !! k))]> m) m ks.

(** [counter[k]] of a [Counter]: 0 for a missing key. *)
Definition lookup0 {K} `{Countable K} (m : gmap K nat) (k : K) : nat :=
  default 0 (m !! k).

Record counts := mk_counts {
  pair_counts : gmap (item * item) nat;
  item_counts : gmap item nat
}.

Definition counts_empty : counts := mk_counts ∅ ∅.

(** Modelled from the spec: one step of the counting pass of
    [build_normalized_comatrix] (spec 4.3, step 2): the distinct items of
    the order each count one occurrence, every unordered pair of distinct
    items appearing together counts one co-occurrence. *)
Definition count_order (acc : counts) (o : order) : counts :=
  let s := remove_dups o in
  mk_counts
    (incr_all (pair_counts acc) (map (fun p => upair p.1 p.2) (combinations2 s)))
    (incr_all (item_counts acc) s).

(** Modelled from the spec: the single streaming pass over the sample. *)
Definition count_pass (os : list order) : counts :=
  foldl count_order counts_empty os.

(** [c / t] on the counts (a 64-bit float in Python; exact here). *)
Definition qdiv (c t : nat) : Q := inject_Z (Z.of_nat c) / inject_Z (Z.of_nat t).

(** The affinity matrix: ordered pair (A, B) to affinity(A, B). *)
Abbreviation matrix := (gmap (item * item) Q).

(** Modelled from the spec: the normalisation step of
    [build_normalized_comatrix] (spec 4.3, step 3): every counted
    unordered pair {a, b} yields the two directed entries
    (a, b) = count / total(a) and (b, a) = count / total(b). *)
Definition normalize (c : counts) : matrix :=
  map_fold
    (fun (k : item * item) (n : nat) (acc : matrix) =>
       <[(k.1, k.2) := qdiv n (lookup0 (item_counts c) k.1)]>
         (<[(k.2, k.1) := qdiv n (lookup0 (item_counts c) k.2)]> acc))
    ∅ (pair_counts c).

(** Lookup in the sparse matrix: a pair never observed is affinity 0. *)
Definition affinity (co : matrix) (a b : item) : Q :=
  default 0%Q (co !! (a, b)).

Section Builder.

(** The seeded sampler of [build_normalized_comatrix]: the spec leaves its
    strategy open (uniform or first-N), so it is a parameter; being a
    function of the seed, the bound and the orders, it is deterministic. *)
Variable sample : Z -> nat -> list order -> list order.

(** Modelled from the spec: the orders [build_normalized_comatrix] counts
    (spec 4.3, step 1): all of them without a bound or when the bound
    covers them, the sampler's draw otherwise. *)
Definition sampled_orders (seed : Z) (os : list order) (sample_n : option nat)
    : list order :=
  match sample_n with
  | Some n => if (length os <=? n)%nat then os else sample seed n os
  | None => os
  end.

(** Modelled from the spec: [build_normalized_comatrix(order, sample_n)]. *)
Definition build_normalized_comatrix (seed : Z) (os : list order)
    (sample_n : option nat) : matrix :=
  normalize (count_pass (sampled_orders seed os sample_n)).

End Builder.

(** The quantities of spec 4.3 as the spec words them. *)
Definition raw_count (a b : item) (os : list order) : nat :=
  length (filter (fun o => a ∈ o /\ b ∈ o) os).

Definition total_occurrence (a : item) (os : list order) : nat :=
  length (filter (fun o => a ∈ o) os).

End Engine.

Module Recommender.
Import PyStr Engine.

(** *** Item tags (spec 4.2) *)

Inductive category := Main | Side | Drink | Dip | Dessert | Other.

#[global] Instance category_eq_dec : EqDecision category.
Proof. solve_decision. Defined.

Definition all_categories : list category := [Main; Side; Drink; Dip; Dessert; Other].

(** The strings [item_type] stores. *)
Definition category_name (t : category) : string :=
  match t with
  | Main => "main" | Side => "side" | Drink => "drink"
  | Dip => "dip" | Dessert => "dessert" | Other => "other"
  end.

(** [d.get(k)] on a Python dict kept as an association list in insertion
    order. *)
Fixpoint assoc {K A} `{EqDecision K} (k : K) (l : list (K * A)) : option A :=
  match l with
  | [] => None
  | (k', v) :: l' => if decide (k = k') then Some v else assoc k l'
  end.

(** [item_type]: the catalog, item to category, in first-seen order. *)
Abbreviation item_types := (list (item * category)).
(** [top_by_type]: per category, (item, frequency) by descending frequency. *)
Abbreviation top_table := (list (category * list (item * nat))).
(** [item_feat]: per item, its attribute tags. *)
Abbreviation feat_table := (list (item * list string)).

(** [item_type.get(it, "other")], as in [menu_reco_page] line 224. *)
Definition type_of (item_type : item_types) (it : item) : category :=
  default Other (assoc it item_type).

Definition qlt_b (x y : Q) : bool := negb (Qle_bool y x).

(** *** Cart Normalizer (spec 4.4) *)

(** Modelled from the spec: [normalize_user_items(selected,
    known_items_lower, lower_to_orig)] of [recommender]: each entry is
    looked up case-insensitively in the catalog's lookup table; entries
    with no match are dropped, repeated items kept once, input order kept.
    [known_items_lower] is the key list of [lower_to_orig]. *)
Definition normalize_user_items (selected known_items_lower : list string)
    (lower_to_orig : gmap string item) : list item :=
  foldl (fun (cart : list item) s =>
           match lower_to_orig !! lower s with
           | Some it => if decide (it ∈ cart) then cart else app cart [it]
           | None => cart
           end) [] selected.

(** *** Recommendation Scorer (spec 4.5) *)

Section Scorer.

(** The static exclusion list and the category-bias increment: the spec
    makes both configuration constants, so they are parameters. *)
Variable blacklist : list item.
Variable bias : Q.

Variable co_norm : matrix.
Variable item_type : item_types.
Variable top_by_type : top_table.

(** Step 1: the sum of affinity(cartItem, candidate) over the cart. *)
Definition base_score (cart : list item) (c : item) : Q :=
  fold_right (fun a acc => affinity co_norm a c + acc)%Q 0%Q cart.

(** Step 3: the bias for a candidate of a category the cart lacks. *)
Definition final_score (cart : list item) (c : item) : Q :=
  (base_score cart c +
   if decide (type_of item_type c ∈ map (type_of item_type) cart) then 0 else bias)%Q.

(** The frequency [top_by_type] records for an item. *)
Definition popularity (c : item) : nat :=
  match assoc (type_of item_type c) top_by_type with
  | Some l => default 0 (assoc c l)
  | None => 0
  end.

(** Steps 1-2: catalog items outside the cart and the exclusion list with
    a positive combined affinity, in catalog order, with their score. *)
Definition scored_candidates (cart : list item) : list (item * Q) :=
  map (fun c => (c, final_score cart c))
      (filter (fun c => (c ∉ cart) /\ (c ∉ blacklist) /\ qlt_b 0 (base_score cart c) = true)
              (map fst item_type)).

(** Step 5 order: [x] strictly ahead of [y] by descending score, then by
    descending popularity. *)
Definition ranks_above (x y : item * Q) : bool :=
  qlt_b (snd y) (snd x) ||
  (Qeq_bool (snd x) (snd y) && (popularity (fst y) <? popularity (fst x))%nat).

(** A stable insertion sort: equal keys keep catalog order. *)
Fixpoint insert_ranked (x : item * Q) (l : list (item * Q)) : list (item * Q) :=
  match l with
  | [] => [x]
  | y :: l' => if ranks_above y x then y :: insert_ranked x l' else x :: l
  end.

Definition sort_ranked (l : list (item * Q)) : list (item * Q) :=
  fold_right insert_ranked [] l.

(** Step 4: the most popular item of the first listed category that has
    one outside the cart, the exclusion list and the picks so far. *)
Definition fallback_pick (cart : list item) (chosen : list (item * Q))
    (cats : list category) : option item :=
  List.find (fun it => bool_decide ((it ∉ cart) /\ (it ∉ blacklist) /\ (it ∉ map fst chosen)))
    (concat (map (fun t => map fst (default [] (assoc t top_by_type))) cats)).

(** Step 4: fill the free slots, categories not yet shown first. *)
Fixpoint fill_fallback (fuel : nat) (cart : list item) (chosen : list (item * Q))
    : list (item * Q) :=
  match fuel with
  | O => chosen
  | S f =>
      if (3 <=? length chosen)%nat then chosen
      else
        let shown := map (fun p => type_of item_type (fst p)) chosen in
        let missing := filter (fun t => t ∉ shown) all_categories in
        match fallback_pick cart chosen missing with
        | Some it => fill_fallback f cart (app chosen [(it, 0%Q)])
        | None =>
            match fallback_pick cart chosen all_categories with
            | Some it => fill_fallback f cart (app chosen [(it, 0%Q)])
            | None => chosen
            end
        end
  end.

End Scorer.

(** Modelled from the spec: [enhanced_recommend(cart, co_norm, item_type,
    top_by_type, item_feat)] of [recommender]: an empty cart gives no
    recommendation; otherwise the three best scored candidates, completed
    by the fallback, as (item, score) pairs in rank order. *)
Definition enhanced_recommend (blacklist : list item) (bias : Q)
    (cart : list item) (co_norm : matrix) (item_type : item_types)
    (top_by_type : top_table) (item_feat : feat_table) : list (item * Q) :=
  match cart with
  | [] => []
  | _ =>
      take 3 (fill_fallback blacklist item_type top_by_type 3 cart
                (take 3 (sort_ranked item_type top_by_type
                           (scored_candidates blacklist bias co_norm item_type cart))))
  end.

(** [enumerate(recs, start=1)]: the ranks of the rendered cards. *)
Definition with_ranks {A} (recs : list A) : list (nat * A) :=
  zip (seq 1 (length recs)) recs.

End Recommender.

(* ================================================================== *)
(** ** Batch Evaluator (spec 4.6) *)
(* ================================================================== *)

Module Batch.
Import Engine Recommender.

(** A labeled test row: the raw cart strings and the ground-truth items. *)
Record test_row := mk_row { row_cart : list string; row_truth : list item }.

(** One line of the output table. *)
Record row_output := mk_out {
  out_cart : list item;
  out_recs : list (item * Q);
  out_hits : list bool
}.

Record metrics := mk_metrics { recall3 : Q; precision3 : Q; top1_accuracy : Q }.

Section Evaluator.
Variable blacklist : list item.
Variable bias : Q.
Variable co_norm : matrix.
Variable item_type : item_types.
Variable top_by_type : top_table.
Variable item_feat : feat_table.
Variable known_items_lower : list string.
Variable lower_to_orig : gmap string item.

(** Modelled from the spec: the per-row step of [batch_predict]: normalise
    the cart, score it, flag every ground-truth item found in the top 3. *)
Definition eval_row (r : test_row) : row_output :=
  let cart := normalize_user_items (row_cart r) known_items_lower lower_to_orig in
  let recs := enhanced_recommend blacklist bias cart co_norm item_type top_by_type item_feat in
  mk_out cart recs (map (fun g => bool_decide (g ∈ map fst recs)) (row_truth r)).

(** Recall@3 of a row: the fraction of its ground truth recovered. *)
Definition row_recall (r : test_row) (o : row_output) : Q :=
  match row_truth r with
  | [] => 0%Q
  | _ => qdiv (length (filter (fun b => b = true) (out_hits o))) (length (row_truth r))
  end.

(** Precision@3 of a row: the correct fraction of the three slots. *)
Definition row_precision (r : test_row) (o : row_output) : Q :=
  qdiv (length (filter (fun p => p.1 ∈ row_truth r) (take 3 (out_recs o)))) 3.

(** Top-1 accuracy of a row: the rank-1 item is a ground-truth item. *)
Definition row_top1 (r : test_row) (o : row_output) : Q :=
  match out_recs o with
  | (x, _) :: _ => if decide (x ∈ row_truth r) then 1%Q else 0%Q
  | [] => 0%Q
  end.

Definition row_credit (r : test_row) (o : row_output) : Q * Q * Q :=
  (row_recall r o, row_precision r o, row_top1 r o).

Definition average (xs : list Q) : Q :=
  match xs with
  | [] => 0%Q
  | _ => (fold_right Qplus 0 xs / inject_Z (Z.of_nat (length xs)))%Q
  end.

(** The credit of every row: (Recall@3, Precision@3, Top-1). *)
Definition batch_credits (rows : list test_row) : list (Q * Q * Q) :=
  zip_with row_credit rows (map eval_row rows).

(** Modelled from the spec: [batch_predict(test_df, ...)]: one output line
    per row, the metrics averaged over the per-row credits. *)
Definition batch_predict (rows : list test_row) : list row_output * metrics :=
  let outs := map eval_row rows in
  let credits := batch_credits rows in
  (outs, mk_metrics (average (map (fun c => c.1.1) credits))
                    (average (map (fun c => c.1.2) credits))
                    (average (map snd credits))).

End Evaluator.
End Batch.

(* ================================================================== *)
(** ** [streamlit_app.py]: the recommendation page *)
(* ================================================================== *)

Module Page.
Import Engine Recommender.

(** The Streamlit calls the page makes, in order. [reco_card] is one
    [EvCard] with the column it is drawn in. *)
Inductive event :=
| EvError (msg : string)
| EvMarkdown (html : string)
| EvButton (disabled : bool)
| EvNormalize (selected : list string)
| EvWarning (msg : string)
| EvColumns (n : nat)
| EvCard (col : nat) (rank : nat) (it : item) (score : Q) (typ : string).

Inductive py_exn := IndexError.

(** The page's effects: the calls made so far, and a raised exception or
    the result. *)
Definition st (A : Type) : Type := (list event * (py_exn + A))%type.

#[global] Instance st_ret : MRet st := fun A a => ([], inr a).
#[global] Instance st_bind : MBind st := fun A B k m =>
  match m with
  | (l, inl e) => (l, inl e)
  | (l, inr a) => let '(l', r) := k a in (app l l', r)
  end.

Definition emit (e : event) : st unit := ([e], inr tt).
Definition raise {A} (e : py_exn) : st A := ([], inl e).

Fixpoint emit_all (es : list event) : st unit :=
  match es with
  | [] => mret tt
  | e :: es' => emit e ;; emit_all es'
  end.

(** [l[i]] on a Python list, for [i >= 0]. *)
Definition py_index {A} (l : list A) (i : nat) : st A :=
  match l !! i with
  | Some x => mret x
  | None => raise IndexError
  end.

(** The artifact bundle [prepare_artifacts] returns (lines 109-116). *)
Record artifact := mk_art {
  art_item_type : item_types;
  art_item_feat : feat_table;
  art_top_by_type : top_table;
  art_co_norm : matrix;
  art_known_items_lower : list string;
  art_lower_to_orig : gmap string item
}.

(** Lines 223-226: [for idx, (it, score) in enumerate(recs, start=1):
    t = item_type.get(it, "other"); with cols[idx - 1]: reco_card(...)]. *)
Fixpoint render_cards (item_type : item_types) (cols : list nat) (idx : nat)
    (recs : list (item * Q)) : st unit :=
  match recs with
  | [] => mret tt
  | (it, score) :: rest =>
      let t := type_of item_type it in
      col ← py_index cols (idx - 1);
      emit (EvCard col idx it score (category_name t)) ;;
      render_cards item_type cols (S idx) rest
  end.

(** Lines 220-226: the header, three columns, one card per recommendation. *)
Definition render_recommendations (item_type : item_types) (recs : list (item * Q))
    : st unit :=
  emit (EvMarkdown "<h3 class='page-h3'>Top 3 Recommendations</h3>") ;;
  emit (EvColumns 3) ;;
  render_cards item_type [0; 1; 2] 1 recs.

Definition too_many_msg : string :=
  "You selected more than 3 items. Only the first 3 will be used.".
Definition no_reco_msg : string :=
  "No recommendations found. Try different items or rebuild the model.".

(** [menu_reco_page()], lines 190-226, once the artifacts are loaded:
    [selected0] is what the multiselect returns, [clicked] whether the
    user pressed the button. The engine is the model above. *)
Definition menu_reco_page (blacklist : list item) (bias : Q) (art : artifact)
    (selected0 : list string) (clicked : bool) : st unit :=
  let item_type := art_item_type art in
  let too_many := (3 <? length selected0)%nat in
  (if too_many then emit (EvError too_many_msg) else mret tt) ;;
  let selected := if too_many then take 3 selected0 else selected0 in
  emit_all (map EvMarkdown (UI.topbar_badges selected 3)) ;;
  let disabled := bool_decide (length selected = 0) in
  emit (EvButton disabled) ;;
  let btn := clicked && negb disabled in
  if btn then
    emit (EvNormalize selected) ;;
    let cart := normalize_user_items selected (art_known_items_lower art)
                  (art_lower_to_orig art) in
    let recs := enhanced_recommend blacklist bias cart (art_co_norm art) item_type
                  (art_top_by_type art) (art_item_feat art) in
    match recs with
    | [] => emit (EvWarning no_reco_msg)
    | _ => render_recommendations item_type recs
    end
  else mret tt.

(** The arguments the page passes to [normalize_user_items], call by call. *)
Definition normalizer_inputs (log : list event) : list (list string) :=
  omap (fun e => match e with EvNormalize l => Some l | _ => None end) log.

End Page.

(* ================================================================== *)
(** ** [ui_components.py]: the recommendation card and the header *)
(* ================================================================== *)

Module Cards.
Import PyStr UI Recommender.

(** A one-character string holding a double quote. *)
Definition dq : string := String (ascii_of_nat 34) EmptyString.

(** [str(n)] for a non-negative int: its decimal digits. *)
Fixpoint dec_aux (fuel n : nat) (acc : string) : string :=
  match fuel with
  | O => acc
  | S f =>
      let acc' := String (ascii_of_nat (48 + n mod 10)) acc in
      if (n <? 10)%nat then acc' else dec_aux f (n / 10) acc'
  end.

Definition py_str_nat (n : nat) : string := dec_aux (S n) n EmptyString.

(** [str.upper] of one character, on the ASCII range. *)
Definition upper_char (c : ascii) : ascii :=
  let n := nat_of_ascii c in
  if (97 <=? n)%nat && (n <=? 122)%nat then ascii_of_nat (n - 32) else c.

(** A cased (ASCII letter) character. *)
Definition is_cased (c : ascii) : bool :=
  let n := nat_of_ascii c in
  ((65 <=? n)%nat && (n <=? 90)%nat) || ((97 <=? n)%nat && (n <=? 122)%nat).

(** [str.title] on the ASCII range: a letter after a cased character is
    lowered, any other letter is raised. *)
Fixpoint title_from (prev_cased : bool) (s : string) : string :=
  match s with
  | EmptyString => EmptyString
  | String c s' =>
      String (if prev_cased then lower_char c else upper_char c)
             (title_from (is_cased c) s')
  end.

Definition py_title (s : string) : string := title_from false s.

(** [TYPE_EMOJI], lines 3-9, as a dict in insertion order. *)
Definition TYPE_EMOJI : list (string * string) :=
  [("main", "🍱"); ("side", "🍟"); ("dip", "🥣"); ("drink", "🥤"); ("other", "🍽️")].

(** [header(text, emoji)], lines 27-28: the markup of its one markdown call. *)
Definition header (text emoji : string) : string :=
  "<h4 class='section-title'>" ++ emoji ++ " " ++ text ++ "</h4>".

(** The medal of line 47: [🥇 if rank==1 else 🥈 if rank==2 else 🥉]. *)
Definition medal (rank : nat) : string :=
  if (rank =? 1)%nat then "🥇" else if (rank =? 2)%nat then "🥈" else "🥉".

Section Card.

(** [f"{score:.2f}"]: Python's fixed-point rendering of the float score. *)
Variable format_2f : Q -> string.

(** [reco_card(rank, item_name, score, typ)], lines 39-52: the markup of
    its one markdown call. *)
Definition reco_card (rank : nat) (item_name : string) (score : Q) (typ : string)
    : string :=
  let emoji := icon_for_item item_name in
  let typ_emoji := default "🍽️" (assoc typ TYPE_EMOJI) in
  let r := py_str_nat rank in
  "
    <div class=" ++ dq ++ "reco-card" ++ dq ++ ">
      <div class=" ++ dq ++ "reco-rank reco-rank-" ++ r ++ dq ++ ">" ++ r ++ "</div>
      <div class=" ++ dq ++ "reco-name" ++ dq ++ ">" ++ emoji ++ " " ++ item_name ++ "</div>
      <div class=" ++ dq ++ "reco-meta" ++ dq ++ ">
        " ++ medal rank ++ " Rec " ++ r ++ " " ++ typ_emoji ++ " " ++ py_title typ ++ "
        &nbsp;•&nbsp; Confidence <strong>" ++ format_2f score ++ "</strong>
      </div>
    </div>
    ".

End Card.

End Cards.

(* ================================================================== *)
(** ** [streamlit_app.py]: artifacts, pages and router *)
(* ================================================================== *)

Module App.
Import PyStr UI Engine Recommender Cards.

(** *** The lookup tables of [prepare_artifacts] (lines 106-107) *)

(** [d[k] = v] on a Python dict kept in insertion order: an existing key
    keeps its place and takes the new value, a new key goes last. *)
Fixpoint dict_set {K V} `{EqDecision K} (k : K) (v : V) (d : list (K * V))
    : list (K * V) :=
  match d with
  | [] => [(k, v)]
  | (k', v') :: d' => if decide (k = k') then (k, v) :: d' else (k', v') :: dict_set k v d'
  end.

(** [known_lower = {itm.lower(): itm for itm in all_items}]. *)
Definition known_lower (all_items : list item) : list (string * item) :=
  foldl (fun d itm => dict_set (lower itm) itm d) [] all_items.

(** [known_items_lower = list(known_lower.keys())]. *)
Definition known_items_lower (all_items : list item) : list string :=
  map fst (known_lower all_items).

(** The [lower_to_orig] entry of the artifact, as a map. *)
Definition lower_to_orig (all_items : list item) : gmap string item :=
  list_to_map (known_lower all_items).

(** [all_items = list(lower_to_orig.values())] of [menu_reco_page]
    (line 193): the options of the menu. *)
Definition menu_options (all_items : list item) : list item :=
  map snd (known_lower all_items).

(** The bundle [prepare_artifacts] saves and returns (lines 109-116), from
    the outputs of [build_items_and_tags] and [build_normalized_comatrix]. *)
Definition prepare_artifacts (item_type : item_types) (item_feat : feat_table)
    (top_by_type : top_table) (all_items : list item) (co_norm : matrix)
    : Page.artifact :=
  Page.mk_art item_type item_feat top_by_type co_norm
    (known_items_lower all_items) (lower_to_orig all_items).

(** *** The pages *)

(** The Streamlit calls of the pages, in order. [EvInCol] is a call made
    inside [with col:] or on a column object; [EvPage] is a call of the
    menu section modelled in [Page]. *)
Inductive ev :=
| EvMd (html : string)
| EvCaption (s : string)
| EvWrite (s : string)
| EvError (msg : string)
| EvWarning (msg : string)
| EvSuccess (msg : string)
| EvButton (label : string)
| EvColumns (n : nat)
| EvInCol (col : nat) (e : ev)
| EvMetric (label value : string)
| EvBarChart (rows : list (string * nat))
| EvSaveCsv (path : string) (rows : list Batch.row_output)
| EvDataframe (rows : list Batch.row_output)
| EvDownload (label file_name mime : string)
| EvPage (e : Page.event).

(** How a page run ends early: [st.stop()], or an uncaught exception. *)
Inductive halt := StopException | Uncaught (e : Page.py_exn).

Definition run (A : Type) : Type := (list ev * (halt + A))%type.

#[global] Instance run_ret : MRet run := fun A a => ([], inr a).
#[global] Instance run_bind : MBind run := fun A B k m =>
  match m with
  | (l, inl h) => (l, inl h)
  | (l, inr a) => let '(l', r) := k a in (app l l', r)
  end.

Definition emit (e : ev) : run unit := ([e], inr tt).

(** [st.stop()]. *)
Definition stop : run unit := ([], inl StopException).

Fixpoint emit_all (es : list ev) : run unit :=
  match es with
  | [] => mret tt
  | e :: es' => emit e ;; emit_all es'
  end.

(** A computation of the menu section, seen from the whole page. *)
Definition lift_page {A} (m : Page.st A) : run A :=
  (map EvPage m.1, match m.2 with inl e => inl (Uncaught e) | inr a => inr a end).

(** [app_brand_title()], lines 129-137. *)
Definition brand_title_html : string :=
  "
        <h1 class=" ++ dq ++ "brand-center" ++ dq ++ ">
          <span class=" ++ dq ++ "brand-blue" ++ dq ++ ">SmartCart</span><span class=" ++ dq ++ "brand-red" ++ dq ++ ">-Web</span>
        </h1>
        ".

Definition app_brand_title : run unit := emit (EvMd brand_title_html).

Definition missing_msg : string :=
  "Artifacts not found. Go to **Build Model (first run)**.".

(** [load_or_build_artifacts()], lines 121-126: [loaded] is what
    [load_artifact("artifacts.pkl")] returns. *)
Definition load_or_build_artifacts (loaded : option Page.artifact)
    : run (option Page.artifact) :=
  match loaded with
  | None => emit (EvWarning missing_msg) ;; mret None
  | Some art => mret (Some art)
  end.

(** [f"{n:,}"] for a non-negative int: its digits, with a comma between
    groups of three counted from the right. [group3] works on the digits
    read right to left. *)
Fixpoint group3 (ds : list ascii) : list ascii :=
  match ds with
  | a :: b :: c :: ((_ :: _) as rest) => a :: b :: c :: ","%char :: group3 rest
  | _ => ds
  end.

Definition fmt_thousands (n : nat) : string :=
  string_of_list_ascii (rev (group3 (rev (list_ascii_of_string (py_str_nat n))))).

Definition welcome_text : string :=
  "Select up to **3 menu items** and get **top-3 recommendations**. Background stays white, text is rich dark for clarity.".

Definition steps_text : string := "1) **Build Model** ‚Üí 2) **Menu & Recommendations** ‚Üí 3) (Optional) **Batch Predict**".

(** [start_page()], lines 141-163: [csvs] is the error message of a
    failing [load_all_csvs()], or the lengths of its order, customer and
    test tables. *)
Definition start_page (csvs : string + (nat * nat * nat)) : run unit :=
  app_brand_title ;;
  emit (EvCaption "") ;;
  emit (EvMd "<h2 class='page-h2'>Welcome</h2>") ;;
  emit (EvWrite welcome_text) ;;
  match csvs with
  | inl e => emit (EvError ("CSV load error: " ++ e)) ;; stop
  | inr (n_order, n_customer, n_test) =>
      emit (EvColumns 4) ;;
      emit (EvInCol 0 (EvMetric "Orders" (fmt_thousands n_order))) ;;
      emit (EvInCol 1 (EvMetric "Customers" (fmt_thousands n_customer))) ;;
      emit (EvInCol 2 (EvMetric "Items" "138")) ;;
      emit (EvInCol 3 (EvMetric "Test Rows" (fmt_thousands n_test))) ;;
      emit (EvMd "<hr class='rule'/>") ;;
      emit (EvMd (header "Quick steps" "üß≠")) ;;
      emit (EvMd steps_text)
  end.

Section Pages.

(** The engine's configuration constants (see [Recommender]). *)
Variable blacklist : list item.
Variable bias : Q.
(** [ART_DIR], derived from the location of the script. *)
Variable art_dir : string.

(** [menu_reco_page()], lines 182-226, from the start of the page. *)
Definition menu_page (loaded : option Page.artifact) (selected : list string)
    (clicked : bool) : run unit :=
  app_brand_title ;;
  emit (EvMd "<h2 class='page-h2'>Menu & Recommendations</h2>") ;;
  art ← load_or_build_artifacts loaded;
  match art with
  | None => mret tt
  | Some a =>
      emit (EvCaption "Menu (pick up to 3 items):") ;;
      lift_page (Page.menu_reco_page blacklist bias a selected clicked)
  end.

(** [os.path.join(a, b)] for a relative [b]. *)
Definition path_join (a b : string) : string :=
  match a with
  | EmptyString => b
  | _ => if String.eqb (substring (String.length a - 1) 1 a) "/" then a ++ b else a ++ "/" ++ b
  end.

Definition out_name : string := "SmartCart_Recommendation_Output.csv".

(** [batch_page()], lines 229-260: [clicked] is the button, [test_csv]
    the error message of a failing [pd.read_csv] or the rows read. *)
Definition batch_page (loaded : option Page.artifact) (clicked : bool)
    (test_csv : string + list Batch.test_row) : run unit :=
  app_brand_title ;;
  emit (EvMd "<h2 class='page-h2'>Batch Predict (CSV)</h2>") ;;
  art ← load_or_build_artifacts loaded;
  match art with
  | None => mret tt
  | Some a =>
      emit (EvCaption "Reads `data/test_data_question.csv` and writes output under `artifacts/`") ;;
      emit (EvButton "Run batch on test_data_question.csv") ;;
      if clicked then
        match test_csv with
        | inl e => emit (EvError ("Cannot read test_data_question.csv: " ++ e))
        | inr rows =>
            let out := (Batch.batch_predict blacklist bias (Page.art_co_norm a)
                          (Page.art_item_type a) (Page.art_top_by_type a)
                          (Page.art_item_feat a) (Page.art_known_items_lower a)
                          (Page.art_lower_to_orig a) rows).1 in
            let out_path := path_join art_dir out_name in
            emit (EvSaveCsv out_path out) ;;
            emit (EvSuccess ("Saved: " ++ out_path)) ;;
            emit (EvDataframe (take 20 out)) ;;
            emit (EvDownload "Download CSV" out_name "text/csv")
        end
      else mret tt
  end.

End Pages.

(** [Counter(xs)]: each distinct value once, in first-seen order, with
    its number of occurrences. *)
Fixpoint counter_add {K} `{EqDecision K} (x : K) (c : list (K * nat)) : list (K * nat) :=
  match c with
  | [] => [(x, 1%nat)]
  | (k, n) :: c' => if decide (x = k) then (k, S n) :: c' else (k, n) :: counter_add x c'
  end.

Definition counter {K} `{EqDecision K} (xs : list K) : list (K * nat) :=
  foldl (fun c x => counter_add x c) [] xs.

(** The four types of the per-type section, ["main", "side", "dip", "drink"]. *)
Definition listed_types : list category := [Main; Side; Dip; Drink].

(** One line of the per-type section, line 281:
    [f"{icon_for_item(it)} {it} <dash> {cnt}"]. *)
Definition type_line (p : item * nat) : string :=
  let '(it, cnt) := p in icon_for_item it ++ " " ++ it ++ " ‚Äî " ++ py_str_nat cnt.

(** One column of the per-type section, lines 278-281. *)
Definition type_column (top_by_type : top_table) (col : nat) (t : category) : list ev :=
  EvInCol col (EvMd ("**" ++ py_title (category_name t) ++ "** " ++
                     default "üçΩÔ∏è" (assoc (category_name t) TYPE_EMOJI))) ::
  map (fun p => EvInCol col (EvWrite (type_line p)))
      (take 130 (default [] (assoc t top_by_type))).

(** [metrics_page()], lines 263-281. *)
Definition metrics_page (loaded : option Page.artifact) : run unit :=
  app_brand_title ;;
  emit (EvMd "<h2 class='page-h2'>Metrics & Explore</h2>") ;;
  art ← load_or_build_artifacts loaded;
  match art with
  | None => mret tt
  | Some a =>
      emit (EvBarChart (counter (map (fun p => category_name p.2) (Page.art_item_type a)))) ;;
      emit (EvMd "<h4 class='page-h4'>Top Items by Type</h4>") ;;
      emit (EvColumns 4) ;;
      emit_all (concat (imap (type_column (Page.art_top_by_type a)) listed_types))
  end.

(** *** The router (lines 372-385) *)

Inductive page_id :=
| StartPage | BuildModelPage | MenuRecoPage | BatchPage | MetricsPage
| WorkflowPage | AboutPage.

(** The options of the sidebar radio (lines 73-85). *)
Definition sidebar_options : list string :=
  ["üèÅ Start";
   "üß± Build Model (first run)";
   "üõí Menu & Recommendations";
   "üì¶ Batch Predict (CSV)";
   "üìä Metrics & Explore";
   "üß© Architecture & Workflow";
   "‚ÑπÔ∏è About"].

Definition route (page : string) : page_id :=
  if starts_with "üèÅ" page then StartPage
  else if starts_with "üß±" page then BuildModelPage
  else if starts_with "üõí" page then MenuRecoPage
  else if starts_with "üì¶" page then BatchPage
  else if starts_with "üìä" page then MetricsPage
  else if starts_with "üß©" page then WorkflowPage
  else AboutPage.

End App.

(* ================================================================== *)
(** ** Observations on the page logs *)
(* ================================================================== *)

Module Obs.
Import Engine Recommender App.

(** The distinct values of a list, in first-seen order. *)
Definition dedup_first {A} `{EqDecision A} (l : list A) : list A :=
  foldl (fun acc x => if decide (x ∈ acc) then acc else app acc [x]) [] l.

(** The medals of the cards drawn by the menu section. *)
Definition card_medals (log : list Page.event) : list string :=
  omap (fun e => match e with Page.EvCard _ r _ _ _ => Some (Cards.medal r) | _ => None end) log.

(** The [st.metric] calls of a page: label and value. *)
Definition metrics_of (log : list ev) : list (string * string) :=
  omap (fun e => match e with EvInCol _ (EvMetric l v) => Some (l, v) | _ => None end) log.

(** The [st.write] calls made in column [col]. *)
Definition writes_in (col : nat) (log : list ev) : list string :=
  omap (fun e => match e with
                 | EvInCol c (EvWrite s) => if (c =? col)%nat then Some s else None
                 | _ => None
                 end) log.

(** The files a page writes, with their rows. *)
Definition saved_files (log : list ev) : list (string * list Batch.row_output) :=
  omap (fun e => match e with EvSaveCsv p rows => Some (p, rows) | _ => None end) log.


(** Digit groups joined by commas. *)
Fixpoint join_groups (gs : list (list ascii)) : list ascii :=
  match gs with
  | [] => []
  | [g] => g
  | g :: gs' => app g (","%char :: join_groups gs')
  end.

End Obs.

(* ================================================================== *)
(** * Proofs *)
(* ================================================================== *)

(** ** The Co-occurrence Builder *)

Module BuilderFacts.
Import Engine.

(** *** The unordered-pair key *)

Lemma compare_refl (a : item) : String.compare a a = Eq.
Proof.
  induction a as [|c a IH]; simpl; [done|].
  unfold Ascii.compare. rewrite N.compare_refl. exact IH.
Qed.

Lemma ltb_irrefl (a : item) : String.ltb a a = false.
Proof. unfold String.ltb. by rewrite compare_refl. Qed.

Lemma ltb_asym (a b : item) : String.ltb a b = true -> String.ltb b a = false.
Proof.
  unfold String.ltb. rewrite (String.compare_antisym b a).
  destruct (String.compare a b); simpl; congruence.
Qed.

Lemma ltb_total (a b : item) :
  a <> b -> String.ltb a b = false -> String.ltb b a = true.
Proof.
  unfold String.ltb. intros Hne. rewrite (String.compare_antisym b a).
  destruct (String.compare a b) eqn:E; simpl; try congruence.
  apply String.compare_eq_iff in E. contradiction.
Qed.

Definition canon (k : item * item) : Prop := String.ltb k.1 k.2 = true.

Lemma upair_cases (a b : item) :
  (upair a b = (a, b)) \/ (upair a b = (b, a)).
Proof. unfold upair. destruct (String.ltb a b); auto. Qed.

Lemma upair_canon (a b : item) : a <> b -> canon (upair a b).
Proof.
  intros Hne. unfold canon, upair. destruct (String.ltb a b) eqn:E; simpl.
  - exact E.
  - by apply ltb_total.
Qed.

Lemma upair_of_canon (a b : item) :
  canon (a, b) -> upair a b = (a, b) /\ upair b a = (a, b).
Proof.
  unfold canon, upair; simpl. intros H. rewrite H, (ltb_asym a b H). done.
Qed.

Lemma upair_eq (x y a b : item) :
  upair x y = upair a b <-> (x = a /\ y = b) \/ (x = b /\ y = a).
Proof.
  split.
  - destruct (upair_cases x y) as [-> | ->], (upair_cases a b) as [-> | ->];
      intros [= -> ->]; auto.
  - intros [[-> ->] | [-> ->]]; [done|].
    unfold upair. destruct (String.ltb a b) eqn:E1.
    + rewrite (ltb_asym _ _ E1). done.
    + destruct (decide (a = b)) as [-> | Hne]; [by rewrite E1|].
      rewrite (ltb_total _ _ Hne E1). done.
Qed.

Lemma upair_diag_not_canon (a : item) : ~ canon (upair a a).
Proof. unfold canon, upair. rewrite ltb_irrefl. simpl. rewrite ltb_irrefl. done. Qed.

(** *** The [Counter] updates *)

Definition cnt {K} `{EqDecision K} (k : K) (ks : list K) : nat :=
  length (filter (fun x => x = k) ks).

Definition pos_map {K} `{Countable K} (m : gmap K nat) : Prop :=
  forall k v, m !! k = Some v -> 0 < v.

Section Counter.
Context {K : Type} `{Countable K}.

Lemma lookup0_incr_all (m : gmap K nat) (ks : list K) (k : K) :
  lookup0 (incr_all m ks) k = lookup0 m k + cnt k ks.
Proof.
  revert m. induction ks as [|x ks IH]; intros m; unfold cnt in *; simpl.
  - lia.
  - rewrite IH, filter_cons. unfold lookup0.
    destruct (decide (x = k)) as [-> | Hne]; simpl.
    + rewrite lookup_insert_eq. simpl. lia.
    + rewrite lookup_insert_ne by done. done.
Qed.

Lemma incr_all_pos (m : gmap K nat) (ks : list K) :
  pos_map m -> pos_map (incr_all m ks).
Proof.
  revert m. induction ks as [|x ks IH]; intros m Hm; simpl; [done|].
  apply IH. intros k v. destruct (decide (x = k)) as [-> | Hne].
  - rewrite lookup_insert_eq. intros [= <-]. lia.
  - rewrite lookup_insert_ne by done. apply Hm.
Qed.

Lemma incr_all_keys (m : gmap K nat) (ks : list K) (k : K) :
  is_Some (incr_all m ks !! k) -> is_Some (m !! k) \/ k ∈ ks.
Proof.
  revert m. induction ks as [|x ks IH]; intros m; simpl; [auto|].
  intros Hk. destruct (IH _ Hk) as [Hs | Hin].
  - destruct (decide (x = k)) as [-> | Hne].
    + right. left.
    + rewrite lookup_insert_ne in Hs by done. auto.
  - right. by right.
Qed.

(** A positive counter stores exactly its non-zero counts. *)
Lemma pos_map_lookup (m : gmap K nat) (k : K) :
  pos_map m -> m !! k = if decide (lookup0 m k = 0) then None else Some (lookup0 m k).
Proof.
  intros Hm. unfold lookup0. destruct (m !! k) as [v|] eqn:E; simpl.
  - specialize (Hm _ _ E). rewrite decide_False by lia. done.
  - done.
Qed.

Lemma cnt_nodup (l : list K) (k : K) :
  NoDup l -> cnt k l = if decide (k ∈ l) then 1 else 0.
Proof.
  unfold cnt. induction 1 as [|x l Hx Hnd IH]; simpl; [done|].
  rewrite filter_cons. destruct (decide (x = k)) as [-> | Hne]; simpl.
  - rewrite IH, decide_False, decide_True by (done || set_solver). done.
  - rewrite IH. destruct (decide (k ∈ l)), (decide (k ∈ x :: l)); set_solver.
Qed.

End Counter.

Lemma cnt_app {K} `{EqDecision K} (k : K) (l1 l2 : list K) :
  cnt k (l1 ++ l2) = cnt k l1 + cnt k l2.
Proof. unfold cnt. by rewrite filter_app, length_app. Qed.

Lemma cnt_map {A K} `{EqDecision K} (f : A -> K) (k : K) (l : list A) :
  cnt k (map f l) = length (filter (fun y => f y = k) l).
Proof.
  unfold cnt. induction l as [|y l IH]; simpl; [done|].
  rewrite !filter_cons. destruct (decide (f y = k)); simpl; lia.
Qed.

Lemma filter_none {A} (P : A -> Prop) `{!forall x, Decision (P x)} (l : list A) :
  (forall y, ~ P y) -> filter P l = [].
Proof.
  intros HP. induction l as [|y l IH]; [done|].
  rewrite filter_cons_False by apply HP. exact IH.
Qed.

(** Among the pairs of [combinations2] over distinct items, the unordered
    pair {A, B} occurs once when both are present, and never otherwise. *)
Lemma cnt_upair_combinations (s : list item) (A B : item) :
  NoDup s -> A <> B ->
  cnt (upair A B) (map (fun p => upair p.1 p.2) (combinations2 s))
  = if decide (A ∈ s /\ B ∈ s) then 1 else 0.
Proof.
  intros Hnd Hne. induction Hnd as [|x xs Hx Hnd IH]; simpl; [done|].
  rewrite map_app, cnt_app, map_map, IH, cnt_map. simpl.
  destruct (decide (x = A)) as [-> | HxA]; [|destruct (decide (x = B)) as [-> | HxB]].
  - rewrite (list_filter_iff _ (fun y => y = B)) by
      (intros y; rewrite upair_eq; naive_solver).
    fold (cnt B xs). rewrite cnt_nodup by done.
    destruct (decide (B ∈ xs)), (decide (A ∈ xs /\ B ∈ xs)),
      (decide (A ∈ A :: xs /\ B ∈ A :: xs)); set_solver.
  - rewrite (list_filter_iff _ (fun y => y = A)) by
      (intros y; rewrite upair_eq; naive_solver).
    fold (cnt A xs). rewrite cnt_nodup by done.
    destruct (decide (A ∈ xs)), (decide (A ∈ xs /\ B ∈ xs)),
      (decide (A ∈ B :: xs /\ B ∈ B :: xs)); set_solver.
  - rewrite filter_none by (intros y; rewrite upair_eq; naive_solver).
    simpl. destruct (decide (A ∈ xs /\ B ∈ xs)),
      (decide (A ∈ x :: xs /\ B ∈ x :: xs)); set_solver.
Qed.

(** *** The counting pass *)

Definition canon_keys (m : gmap (item * item) nat) : Prop :=
  forall k, is_Some (m !! k) -> canon k.

Lemma combinations2_distinct (s : list item) p :
  NoDup s -> p ∈ combinations2 s -> p.1 <> p.2.
Proof.
  induction 1 as [|x xs Hx Hnd IH]; simpl; [set_solver|].
  rewrite elem_of_app, list_elem_of_fmap. intros [[y [-> Hy]] | Hp]; simpl.
  - intros ->. contradiction.
  - by apply IH.
Qed.

Lemma count_order_invariants (acc : counts) (o : order) :
  canon_keys (pair_counts acc) -> pos_map (pair_counts acc) -> pos_map (item_counts acc) ->
  canon_keys (pair_counts (count_order acc o)) /\
  pos_map (pair_counts (count_order acc o)) /\ pos_map (item_counts (count_order acc o)).
Proof.
  intros Hc Hp Hi. unfold count_order; simpl. split; [|split; by apply incr_all_pos].
  intros k Hk. destruct (incr_all_keys _ _ _ Hk) as [Hs | Hin]; [by apply Hc|].
  apply list_elem_of_fmap in Hin as [p [-> Hp']].
  apply upair_canon. eapply combinations2_distinct; [apply NoDup_remove_dups | exact Hp'].
Qed.

Lemma count_pass_invariants_gen (acc : counts) (os : list order) :
  canon_keys (pair_counts acc) -> pos_map (pair_counts acc) -> pos_map (item_counts acc) ->
  canon_keys (pair_counts (foldl count_order acc os)) /\
  pos_map (pair_counts (foldl count_order acc os)) /\
  pos_map (item_counts (foldl count_order acc os)).
Proof.
  revert acc. induction os as [|o os IH]; intros acc Hc Hp Hi; simpl; [done|].
  destruct (count_order_invariants acc o Hc Hp Hi) as (? & ? & ?). by apply IH.
Qed.

Lemma count_pass_invariants (os : list order) :
  canon_keys (pair_counts (count_pass os)) /\
  pos_map (pair_counts (count_pass os)) /\ pos_map (item_counts (count_pass os)).
Proof.
  apply count_pass_invariants_gen; simpl.
  - intros k. rewrite lookup_empty. intros [? ?]. done.
  - intros k v. rewrite lookup_empty. done.
  - intros k v. rewrite lookup_empty. done.
Qed.

Lemma count_pass_items_gen (acc : counts) (os : list order) (A : item) :
  lookup0 (item_counts (foldl count_order acc os)) A
  = lookup0 (item_counts acc) A + total_occurrence A os.
Proof.
  unfold total_occurrence. revert acc.
  induction os as [|o os IH]; intros acc; simpl; [lia|].
  rewrite IH, filter_cons. unfold count_order; simpl.
  rewrite lookup0_incr_all, cnt_nodup by apply NoDup_remove_dups.
  destruct (decide (A ∈ remove_dups o)) as [Hin | Hin];
    rewrite elem_of_remove_dups in Hin;
    [rewrite decide_True by done | rewrite decide_False by done]; simpl; lia.
Qed.

Lemma count_pass_pairs_gen (acc : counts) (os : list order) (A B : item) :
  A <> B ->
  lookup0 (pair_counts (foldl count_order acc os)) (upair A B)
  = lookup0 (pair_counts acc) (upair A B) + raw_count A B os.
Proof.
  intros Hne. unfold raw_count. revert acc.
  induction os as [|o os IH]; intros acc; simpl; [lia|].
  rewrite IH, filter_cons. unfold count_order; simpl.
  rewrite lookup0_incr_all, cnt_upair_combinations by (apply NoDup_remove_dups || done).
  destruct (decide (A ∈ remove_dups o /\ B ∈ remove_dups o)) as [Hin | Hin];
    rewrite !elem_of_remove_dups in Hin;
    [rewrite decide_True by done | rewrite decide_False by done]; simpl; lia.
Qed.

Lemma count_pass_items (os : list order) (A : item) :
  lookup0 (item_counts (count_pass os)) A = total_occurrence A os.
Proof. unfold count_pass. rewrite count_pass_items_gen. done. Qed.

Lemma count_pass_pairs (os : list order) (A B : item) :
  A <> B -> lookup0 (pair_counts (count_pass os)) (upair A B) = raw_count A B os.
Proof. intros Hne. unfold count_pass. rewrite count_pass_pairs_gen by done. done. Qed.

(** *** The normalisation step *)

Lemma normalize_lookup (c : counts) (A B : item) :
  canon_keys (pair_counts c) ->
  normalize c !! (A, B)
  = (pair_counts c !! upair A B) ≫= (fun n => Some (qdiv n (lookup0 (item_counts c) A))).
Proof.
  unfold normalize. generalize (item_counts c) as tot. intros tot.
  generalize (pair_counts c) as pc. intros pc. revert A B.
  refine (map_fold_weak_ind
    (fun (r : matrix) (m : gmap (item * item) nat) =>
       forall A B, canon_keys m ->
       r !! (A, B) = (m !! upair A B) ≫= (fun n => Some (qdiv n (lookup0 tot A))))
    _ _ _ _ pc).
  - intros A B _. by rewrite !lookup_empty.
  - intros [a b] x m r Hi IH A B Hc.
    assert (canon (a, b)) as Hab by (apply Hc; rewrite lookup_insert_eq; eauto).
    assert (canon_keys m) as Hm.
    { intros k Hk. apply Hc. destruct (decide (k = (a, b))) as [-> | Hne].
      - rewrite Hi in Hk. by destruct Hk.
      - by rewrite lookup_insert_ne. }
    destruct (upair_of_canon a b Hab) as [Hu1 Hu2].
    assert (a <> b) as Hne_ab by (intros ->; unfold canon in Hab; simpl in Hab;
      rewrite ltb_irrefl in Hab; discriminate).
    simpl. destruct (decide ((A, B) = (a, b))) as [[= -> ->] | Hne1].
    { rewrite lookup_insert_eq, Hu1, lookup_insert_eq. done. }
    rewrite lookup_insert_ne by done.
    destruct (decide ((A, B) = (b, a))) as [[= -> ->] | Hne2].
    { rewrite lookup_insert_eq, Hu2, lookup_insert_eq. done. }
    rewrite lookup_insert_ne by done. rewrite (IH A B Hm).
    rewrite lookup_insert_ne; [done|].
    rewrite <- Hu1. intros Heq. apply upair_eq in Heq as [[-> ->] | [-> ->]]; done.
Qed.

(** The matrix built from a sample, entry by entry, in terms of the
    quantities of spec 4.3. *)
Lemma comatrix_lookup (os : list order) (A B : item) :
  normalize (count_pass os) !! (A, B)
  = if decide (A = B) then None
    else if decide (raw_count A B os = 0) then None
    else Some (qdiv (raw_count A B os) (total_occurrence A os)).
Proof.
  destruct (count_pass_invariants os) as (Hc & Hp & _).
  rewrite normalize_lookup by done.
  destruct (decide (A = B)) as [<- | Hne].
  - destruct (pair_counts (count_pass os) !! upair A A) eqn:E; [|done].
    exfalso. apply (upair_diag_not_canon A), Hc. rewrite E. eauto.
  - rewrite (pos_map_lookup _ _ Hp), count_pass_pairs by done.
    destruct (decide (raw_count A B os = 0)); [done|]. simpl.
    by rewrite count_pass_items.
Qed.

Lemma raw_count_le_total (os : list order) (A B : item) :
  raw_count A B os <= total_occurrence A os.
Proof.
  unfold raw_count, total_occurrence. induction os as [|o os IH]; simpl; [lia|].
  rewrite !filter_cons. destruct (decide (A ∈ o /\ B ∈ o)), (decide (A ∈ o));
    simpl; try lia; tauto.
Qed.

Lemma length_filter_perm {A} (P : A -> Prop) `{!forall x, Decision (P x)} (l1 l2 : list A) :
  l1 ≡ₚ l2 -> length (filter P l1) = length (filter P l2).
Proof.
  induction 1 as [|x l1 l2 _ IH|x y l|l1 l2 l3 _ IH1 _ IH2]; simpl.
  - done.
  - rewrite !filter_cons. destruct (decide (P x)); simpl; lia.
  - rewrite !filter_cons. destruct (decide (P x)), (decide (P y)); simpl; lia.
  - lia.
Qed.

Lemma qdiv_bounds (r t : nat) : r <= t -> (0 <= qdiv r t <= 1)%Q.
Proof.
  intros Hrt. unfold qdiv. destruct (decide (t = 0)) as [-> | Ht].
  - assert (r = 0) as -> by lia. split; compute; discriminate.
  - assert (0 < inject_Z (Z.of_nat t))%Q as Hpos
      by (change 0%Q with (inject_Z 0); rewrite <- Zlt_Qlt; lia).
    split.
    + apply Qle_shift_div_l; [done|]. rewrite Qmult_0_l.
      change 0%Q with (inject_Z 0). rewrite <- Zle_Qle. lia.
    + apply Qle_shift_div_r; [done|]. rewrite Qmult_1_l, <- Zle_Qle. lia.
Qed.

Lemma qdiv_zero (t : nat) : (qdiv 0 t == 0)%Q.
Proof. unfold qdiv, Qdiv. apply Qmult_0_l. Qed.

End BuilderFacts.

Module BuilderClaims.
Import Engine BuilderFacts.

Definition wings_orders : list order :=
  [["Wings"; "Fries"]; ["Wings"; "Ranch"]; ["Wings"; "Fries"; "Ranch"]].

(** C1: for every order collection and every ordered pair (A, B) of
    distinct items, the affinity the builder produces equals
    rawCount(A, B) / totalOccurrence(A) over the orders it counts; on the
    three orders of the spec's scenario with sample bound 3,
    affinity(Wings, Fries) = affinity(Wings, Ranch) = 2/3 and
    affinity(Fries, Wings) = 1. *)
Theorem affinity_is_cooccurrence_fraction :
  (forall (sample : Z -> nat -> list order -> list order) (seed : Z)
          (os : list order) (sample_n : option nat) (A B : item),
     A <> B ->
     Qeq (affinity (build_normalized_comatrix sample seed os sample_n) A B)
         (qdiv (raw_count A B (sampled_orders sample seed os sample_n))
               (total_occurrence A (sampled_orders sample seed os sample_n)))) /\
  (forall (sample : Z -> nat -> list order -> list order) (seed : Z),
     Qeq (affinity (build_normalized_comatrix sample seed wings_orders (Some 3%nat))
            "Wings" "Fries") (2 # 3) /\
     Qeq (affinity (build_normalized_comatrix sample seed wings_orders (Some 3%nat))
            "Wings" "Ranch") (2 # 3) /\
     Qeq (affinity (build_normalized_comatrix sample seed wings_orders (Some 3%nat))
            "Fries" "Wings") 1).
Proof.
  split.
  - intros sample seed os sample_n A B Hne.
    unfold affinity, build_normalized_comatrix. rewrite comatrix_lookup.
    rewrite decide_False by done.
    destruct (decide (raw_count A B _ = 0)) as [E | E]; simpl.
    + rewrite E, qdiv_zero. reflexivity.
    + reflexivity.
  - intros sample seed. vm_compute. repeat split; reflexivity.
Qed.

(** C2: for every order collection the builder is run on, every entry
    affinity(A, B) with A <> B lies in [0, 1], and the matrix stores no
    self-pair (A, A). *)
Theorem affinity_in_unit_interval_no_self_pairs :
  forall (sample : Z -> nat -> list order -> list order) (seed : Z)
         (os : list order) (sample_n : option nat),
    (forall A B : item, A <> B ->
       Qle 0 (affinity (build_normalized_comatrix sample seed os sample_n) A B) /\
       Qle (affinity (build_normalized_comatrix sample seed os sample_n) A B) 1) /\
    (forall A : item, build_normalized_comatrix sample seed os sample_n !! (A, A) = None).
Proof.
  intros sample seed os sample_n. unfold build_normalized_comatrix. split.
  - intros A B Hne. unfold affinity.
    rewrite comatrix_lookup, decide_False by done.
    destruct (decide (raw_count A B _ = 0)); simpl.
    + split; compute; discriminate.
    + apply qdiv_bounds, raw_count_le_total.
  - intros A. rewrite comatrix_lookup, decide_True by done. done.
Qed.

(** C6: two runs of the builder on the same orders, bound and seed give
    the same matrix, bit for bit: the counts are exact integers and every
    entry is one division of two counts, so the result depends only on
    the sampled orders as a multiset, not on the order a run visits them
    in. Two runs whose draws under the seed agree up to order build equal
    matrices (Leibniz equality of the finite maps). *)
Theorem comatrix_reproducible :
  forall (sample1 sample2 : Z -> nat -> list order -> list order) (seed : Z)
         (os : list order) (sample_n : option nat),
    sampled_orders sample1 seed os sample_n ≡ₚ sampled_orders sample2 seed os sample_n ->
    build_normalized_comatrix sample1 seed os sample_n
    = build_normalized_comatrix sample2 seed os sample_n.
Proof.
  intros sample1 sample2 seed os sample_n Hp. unfold build_normalized_comatrix.
  apply map_eq. intros [A B]. rewrite !comatrix_lookup.
  unfold raw_count, total_occurrence.
  rewrite (length_filter_perm (fun o => A ∈ o /\ B ∈ o) _ _ Hp).
  rewrite (length_filter_perm (fun o => A ∈ o) _ _ Hp).
  reflexivity.
Qed.

(** The first [n] orders: a sampler that meets the spec's bound. *)
Definition sample_first (seed : Z) (n : nat) (os : list order) : list order := take n os.

(** The same draw, visited in the opposite order. *)
Definition sample_first_rev (seed : Z) (n : nat) (os : list order) : list order :=
  reverse (take n os).

Lemma affinity_is_cooccurrence_fraction_witness :
  "Wings" <> "Fries" /\
  Qeq (affinity (build_normalized_comatrix sample_first 7 wings_orders (Some 2%nat))
          "Wings" "Fries")
      (qdiv (raw_count "Wings" "Fries" (sampled_orders sample_first 7 wings_orders (Some 2%nat)))
            (total_occurrence "Wings"
               (sampled_orders sample_first 7 wings_orders (Some 2%nat)))).
Proof.
  split; [discriminate|].
  apply (proj1 affinity_is_cooccurrence_fraction). discriminate.
Defined.

Lemma affinity_in_unit_interval_no_self_pairs_witness :
  "Wings" <> "Ranch" /\
  Qle 0 (affinity (build_normalized_comatrix sample_first 7 wings_orders (Some 2%nat))
           "Wings" "Ranch") /\
  Qle (affinity (build_normalized_comatrix sample_first 7 wings_orders (Some 2%nat))
         "Wings" "Ranch") 1.
Proof.
  split; [discriminate|].
  apply (proj1 (affinity_in_unit_interval_no_self_pairs sample_first 7 wings_orders
                  (Some 2%nat))).
  discriminate.
Defined.

Lemma comatrix_reproducible_witness :
  sampled_orders sample_first 7 wings_orders (Some 2%nat)
    ≡ₚ sampled_orders sample_first_rev 7 wings_orders (Some 2%nat) /\
  build_normalized_comatrix sample_first 7 wings_orders (Some 2%nat)
  = build_normalized_comatrix sample_first_rev 7 wings_orders (Some 2%nat).
Proof.
  assert (sampled_orders sample_first 7 wings_orders (Some 2%nat)
    ≡ₚ sampled_orders sample_first_rev 7 wings_orders (Some 2%nat)) as Hp.
  { vm_compute. apply Permutation_swap. }
  split; [exact Hp|]. exact (comatrix_reproducible _ _ _ _ _ Hp).
Defined.

End BuilderClaims.

(** ** The Cart Normalizer and the Recommendation Scorer *)

Module ScorerFacts.
Import PyStr Engine Recommender.

Lemma insert_ranked_perm (it : item_types) (top : top_table) x l :
  insert_ranked it top x l ≡ₚ x :: l.
Proof.
  induction l as [|y l IH]; simpl; [done|].
  destruct (ranks_above it top y x).
  - rewrite IH. apply Permutation_swap.
  - done.
Qed.

Lemma sort_ranked_perm (it : item_types) (top : top_table) l :
  sort_ranked it top l ≡ₚ l.
Proof.
  induction l as [|x l IH]; simpl; [done|].
  rewrite insert_ranked_perm, IH. done.
Qed.

Lemma fallback_pick_spec bl top cart chosen cats it :
  fallback_pick bl top cart chosen cats = Some it ->
  (it ∉ cart) /\ (it ∉ bl) /\ (it ∉ map fst chosen).
Proof.
  unfold fallback_pick. intros Hf. apply List.find_some in Hf as [_ Hf].
  by apply bool_decide_eq_true in Hf.
Qed.

Lemma fill_fallback_outside_cart bl it top fuel cart chosen :
  Forall (fun x => x ∉ cart) (map fst chosen) ->
  Forall (fun x => x ∉ cart) (map fst (fill_fallback bl it top fuel cart chosen)).
Proof.
  revert chosen. induction fuel as [|fuel IH]; intros chosen Hc; cbn [fill_fallback]; [done|].
  destruct (3 <=? length chosen)%nat; [done|].
  destruct (fallback_pick bl top cart chosen _) as [x|] eqn:E1.
  - apply IH. rewrite map_app, Forall_app. split; [done|].
    apply fallback_pick_spec in E1. simpl. constructor; [tauto | constructor].
  - destruct (fallback_pick bl top cart chosen all_categories) as [x|] eqn:E2; [|done].
    apply IH. rewrite map_app, Forall_app. split; [done|].
    apply fallback_pick_spec in E2. simpl. constructor; [tauto | constructor].
Qed.

Lemma scored_outside_cart bl bias co it cart :
  Forall (fun x => x ∉ cart) (map fst (scored_candidates bl bias co it cart)).
Proof.
  unfold scored_candidates. rewrite map_map. apply Forall_forall.
  intros x Hx. apply list_elem_of_fmap in Hx as [c [-> Hc]]. simpl.
  apply list_elem_of_filter in Hc. tauto.
Qed.

Lemma Forall_map_fst_take {A B} (P : A -> Prop) (n : nat) (l : list (A * B)) :
  Forall P (map fst l) -> Forall P (map fst (take n l)).
Proof.
  revert l. induction n as [|n IH]; intros [|x l] H; simpl; try constructor.
  - by inversion H.
  - apply IH. by inversion H.
Qed.

Lemma Forall_map_fst_perm {A B} (P : A -> Prop) (l1 l2 : list (A * B)) :
  l1 ≡ₚ l2 -> Forall P (map fst l2) -> Forall P (map fst l1).
Proof.
  intros Hp H. rewrite Forall_forall in H |- *. intros x Hx. apply H.
  by rewrite <- Hp.
Qed.

Lemma with_ranks_fst {A} (recs : list A) :
  map fst (with_ranks recs) = seq 1 (length recs).
Proof.
  unfold with_ranks. generalize 1. induction recs as [|x recs IH]; intros n; simpl; [done|].
  by rewrite IH.
Qed.

Lemma normalize_user_items_gen (selected known : list string)
    (l2o : gmap string item) (cart : list item) :
  Forall (fun s => l2o !! lower s = None) selected ->
  foldl (fun (cart : list item) s =>
           match l2o !! lower s with
           | Some it => if decide (it ∈ cart) then cart else app cart [it]
           | None => cart
           end) cart selected = cart.
Proof.
  intros H. revert cart. induction H as [|s selected Hs _ IH]; intros cart; simpl; [done|].
  rewrite Hs. apply IH.
Qed.

End ScorerFacts.

Module ScorerClaims.
Import PyStr Engine Recommender ScorerFacts.

(** C3: for every cart (in particular every cart of 1 to 3 catalog
    items), the scorer returns at most 3 recommendations, none of them an
    item of the cart, and the ranks [enumerate(recs, start=1)] assigns are
    1, 2, ... up to the number of recommendations. *)
Theorem recommend_top3_excludes_cart :
  forall (blacklist : list item) (bias : Q) (cart : list item) (co_norm : matrix)
         (item_type : item_types) (top_by_type : top_table) (item_feat : feat_table),
    length (enhanced_recommend blacklist bias cart co_norm item_type top_by_type item_feat) <= 3 /\
    Forall (fun x => x ∉ cart)
      (map fst (enhanced_recommend blacklist bias cart co_norm item_type top_by_type item_feat)) /\
    map fst (with_ranks (enhanced_recommend blacklist bias cart co_norm item_type
                           top_by_type item_feat))
    = seq 1 (length (enhanced_recommend blacklist bias cart co_norm item_type
                       top_by_type item_feat)).
Proof.
  intros bl bias cart co it top feat. split; [|split].
  - unfold enhanced_recommend. destruct cart; simpl; [lia|].
    rewrite length_take. lia.
  - unfold enhanced_recommend. destruct cart as [|c cart']; [constructor|].
    apply Forall_map_fst_take, fill_fallback_outside_cart, Forall_map_fst_take.
    eapply Forall_map_fst_perm; [apply sort_ranked_perm|].
    apply scored_outside_cart.
  - apply with_ranks_fst.
Qed.

(** C4: the scorer returns no recommendation for the empty cart, and when
    the Cart Normalizer finds no case-insensitive catalog match for any
    supplied entry, the cart it returns is empty and so is the scorer's
    answer (the scorer is a total function: it never raises). *)
Theorem empty_cart_no_recommendation :
  (forall (blacklist : list item) (bias : Q) (co_norm : matrix) (item_type : item_types)
          (top_by_type : top_table) (item_feat : feat_table),
     enhanced_recommend blacklist bias [] co_norm item_type top_by_type item_feat = []) /\
  (forall (blacklist : list item) (bias : Q) (co_norm : matrix) (item_type : item_types)
          (top_by_type : top_table) (item_feat : feat_table)
          (selected known_items_lower : list string) (lower_to_orig : gmap string item),
     Forall (fun s => lower_to_orig !! lower s = None) selected ->
     normalize_user_items selected known_items_lower lower_to_orig = [] /\
     enhanced_recommend blacklist bias
       (normalize_user_items selected known_items_lower lower_to_orig)
       co_norm item_type top_by_type item_feat = []).
Proof.
  split.
  - done.
  - intros bl bias co it top feat selected known l2o H.
    assert (normalize_user_items selected known l2o = []) as E.
    { unfold normalize_user_items. by apply normalize_user_items_gen. }
    rewrite E. done.
Qed.

Definition demo_lower_to_orig : gmap string item :=
  <["wings" := "Wings"]> (<["fries" := "Fries"]> ∅).

Lemma empty_cart_no_recommendation_witness :
  Forall (fun s => demo_lower_to_orig !! lower s = None) ["NonexistentItem"] /\
  normalize_user_items ["NonexistentItem"] ["wings"; "fries"] demo_lower_to_orig = [] /\
  enhanced_recommend [] (1 # 10)
    (normalize_user_items ["NonexistentItem"] ["wings"; "fries"] demo_lower_to_orig)
    ∅ [("Wings", Main); ("Fries", Side)] [] [] = [].
Proof.
  assert (Forall (fun s => demo_lower_to_orig !! lower s = None) ["NonexistentItem"]) as H.
  { constructor; [vm_compute; reflexivity | constructor]. }
  split; [exact H|].
  exact (proj2 empty_cart_no_recommendation [] (1 # 10) ∅ [("Wings", Main); ("Fries", Side)]
           [] [] ["NonexistentItem"] ["wings"; "fries"] demo_lower_to_orig H).
Defined.

End ScorerClaims.

(** ** The recommendation page *)

Module PageFacts.
Import Engine Recommender Page.

Lemma bind_log {A B} (m : st A) (k : A -> st B) :
  (m ≫= k).1 = app m.1 (match m.2 with inr a => (k a).1 | inl _ => [] end).
Proof.
  destruct m as [l [e|a]]; simpl.
  - by rewrite app_nil_r.
  - unfold mbind, st_bind. by destruct (k a).
Qed.

Lemma bind_res {A B} (m : st A) (k : A -> st B) :
  (m ≫= k).2 = match m.2 with inr a => (k a).2 | inl e => inl e end.
Proof.
  destruct m as [l [e|a]]; simpl; [done|].
  unfold mbind, st_bind. by destruct (k a).
Qed.

Lemma emit_all_res (es : list event) : (emit_all es).2 = inr tt.
Proof.
  induction es as [|e es IH]; cbn [emit_all]; [done|]. rewrite bind_res. exact IH.
Qed.

Lemma emit_all_log (es : list event) : (emit_all es).1 = es.
Proof.
  induction es as [|e es IH]; cbn [emit_all]; [done|]. rewrite bind_log, IH. done.
Qed.

Lemma normalizer_inputs_app (l1 l2 : list event) :
  normalizer_inputs (app l1 l2) = app (normalizer_inputs l1) (normalizer_inputs l2).
Proof. unfold normalizer_inputs. apply omap_app. Qed.

Lemma normalizer_inputs_markdown (xs : list string) :
  normalizer_inputs (map EvMarkdown xs) = [].
Proof. induction xs; simpl; done. Qed.

Lemma render_cards_no_normalize it cols idx recs :
  normalizer_inputs (render_cards it cols idx recs).1 = [].
Proof.
  revert idx. induction recs as [|[x score] recs IH]; intros idx; cbn [render_cards]; [done|].
  rewrite bind_log, normalizer_inputs_app. unfold py_index.
  destruct (cols !! (idx - 1)); unfold mret, st_ret; cbn [fst snd]; [|done].
  rewrite bind_log, normalizer_inputs_app. unfold emit. cbn [fst snd].
  rewrite IH. done.
Qed.

Lemma render_cards_res it idx recs :
  1 <= idx <= 4 ->
  (render_cards it [0; 1; 2] idx recs).2
  = if (idx - 1 + length recs <=? 3)%nat then inr tt else inl IndexError.
Proof.
  revert idx. induction recs as [|[x score] recs IH]; intros idx Hidx; cbn [render_cards].
  - simpl. rewrite (proj2 (Nat.leb_le _ _)) by lia. done.
  - rewrite bind_res. unfold py_index.
    destruct (decide (idx - 1 < 3)) as [Hlt | Hge].
    + destruct ([0; 1; 2] !! (idx - 1)) as [col|] eqn:E;
        [|apply lookup_ge_None in E; simpl in E; lia].
      unfold mret, st_ret. cbn [fst snd]. rewrite bind_res. unfold emit.
      cbn [fst snd]. rewrite IH by lia.
      replace (S idx - 1 + length recs) with (idx - 1 + S (length recs)) by lia. done.
    + rewrite lookup_ge_None_2 by (simpl; lia). simpl.
      rewrite (proj2 (Nat.leb_gt _ _)) by lia. done.
Qed.

End PageFacts.

Module PageClaims.
Import Engine Recommender Page PageFacts.

(** C5: whatever the user selects, the page hands [normalize_user_items]
    (and through it the scorer) only the first 3 selected entries: there
    is one call exactly when the button is pressed and enabled (a
    non-empty selection), its argument is [selected[:3]], and no call ever
    receives more than 3 entries. *)
Theorem page_caps_cart_at_three :
  forall (blacklist : list item) (bias : Q) (art : artifact)
         (selected : list string) (clicked : bool),
    normalizer_inputs (menu_reco_page blacklist bias art selected clicked).1
      = (if clicked && bool_decide (selected <> []) then [take 3 selected] else []) /\
    Forall (fun l => length l <= 3)
      (normalizer_inputs (menu_reco_page blacklist bias art selected clicked).1).
Proof.
  intros bl bias art selected clicked.
  assert (normalizer_inputs (menu_reco_page bl bias art selected clicked).1
      = (if clicked && bool_decide (selected <> []) then [take 3 selected] else [])) as E.
  { assert ((if (3 <? length selected)%nat then take 3 selected else selected)
            = take 3 selected) as Hsel.
    { destruct (Nat.ltb_spec 3 (length selected)); [done|].
      rewrite take_ge by lia. done. }
    assert (bool_decide (length (take 3 selected) = 0) = negb (bool_decide (selected <> [])))
      as Hdis.
    { destruct selected as [|s sel]; [reflexivity|].
      rewrite bool_decide_eq_false_2 by (simpl; lia).
      rewrite bool_decide_eq_true_2 by done. reflexivity. }
    unfold menu_reco_page. cbv zeta. rewrite Hsel, Hdis, negb_involutive.
    destruct (3 <? length selected)%nat;
      rewrite bind_log, normalizer_inputs_app; unfold emit, mret, st_ret; cbn [fst snd];
      rewrite bind_log, normalizer_inputs_app, emit_all_res, emit_all_log,
        normalizer_inputs_markdown;
      rewrite bind_log, normalizer_inputs_app; cbn [fst snd];
      (destruct (clicked && bool_decide (selected <> [])); [|reflexivity]);
      rewrite bind_log, normalizer_inputs_app; cbn [fst snd];
      (destruct (enhanced_recommend _ _ _ _ _ _ _) as [|r rs]; [reflexivity|]);
      unfold render_recommendations, emit; rewrite bind_log; cbn [fst snd];
      rewrite bind_log; cbn [fst snd]; rewrite !normalizer_inputs_app, render_cards_no_normalize;
      reflexivity. }
  split; [exact E|]. rewrite E.
  destruct (clicked && bool_decide (selected <> [])); [|constructor].
  constructor; [|constructor]. rewrite length_take. lia.
Qed.

(** C9: the rendering loop of [menu_reco_page] indexes the 3 columns at
    [rank - 1] for each recommendation: it completes exactly when there
    are at most 3 recommendations, and raises [IndexError] otherwise. *)
Theorem render_in_bounds_iff_at_most_three :
  forall (item_type : item_types) (recs : list (item * Q)),
    (render_recommendations item_type recs).2
    = if (length recs <=? 3)%nat then inr tt else inl IndexError.
Proof.
  intros it recs. unfold render_recommendations. rewrite !bind_res. simpl.
  rewrite render_cards_res by lia. done.
Qed.

End PageClaims.

(** ** The Batch Evaluator *)

Module BatchClaims.
Import PyStr Engine Recommender Batch.

Lemma eval_row_empty_cart bl bias co it top feat known l2o (r : test_row) :
  normalize_user_items (row_cart r) known l2o = [] ->
  eval_row bl bias co it top feat known l2o r
  = mk_out [] [] (map (fun _ => false) (row_truth r)).
Proof.
  intros E. unfold eval_row. rewrite E. simpl. f_equal.
Qed.

Lemma filter_true_all_false {A} (l : list A) :
  filter (fun b => b = true) (map (fun _ => false) l) = [].
Proof. induction l; simpl; [done|]. rewrite filter_cons_False by done. done. Qed.

(** C7: the evaluator treats every row of the test table: it yields one
    output line and one credit per row; a row whose cart normalises to no
    catalog item still gets its line (empty cart, no recommendation, no
    hit) and earns zero Recall@3, zero Precision@3 and zero Top-1 credit
    in the averages. *)
Theorem batch_processes_every_row :
  forall (blacklist : list item) (bias : Q) (co_norm : matrix) (item_type : item_types)
         (top_by_type : top_table) (item_feat : feat_table)
         (known_items_lower : list string) (lower_to_orig : gmap string item)
         (rows : list test_row),
    length (batch_predict blacklist bias co_norm item_type top_by_type item_feat
              known_items_lower lower_to_orig rows).1 = length rows /\
    length (batch_credits blacklist bias co_norm item_type top_by_type item_feat
              known_items_lower lower_to_orig rows) = length rows /\
    (forall (i : nat) (r : test_row),
       rows !! i = Some r ->
       normalize_user_items (row_cart r) known_items_lower lower_to_orig = [] ->
       (batch_predict blacklist bias co_norm item_type top_by_type item_feat
          known_items_lower lower_to_orig rows).1 !! i
       = Some (mk_out [] [] (map (fun _ => false) (row_truth r))) /\
       exists c : Q * Q * Q,
         batch_credits blacklist bias co_norm item_type top_by_type item_feat
           known_items_lower lower_to_orig rows !! i = Some c /\
         Qeq c.1.1 0 /\ Qeq c.1.2 0 /\ Qeq c.2 0).
Proof.
  intros bl bias co it top feat known l2o rows. split; [|split].
  - simpl. apply length_map.
  - unfold batch_credits. rewrite length_zip_with, length_map. lia.
  - intros i r Hi Hn.
    pose proof (eval_row_empty_cart bl bias co it top feat known l2o r Hn) as Hr.
    split.
    + simpl. rewrite list_lookup_fmap, Hi. simpl. by rewrite Hr.
    + exists (row_credit r (mk_out [] [] (map (fun _ => false) (row_truth r)))).
      split.
      * unfold batch_credits. rewrite lookup_zip_with, list_lookup_fmap, Hi.
        simpl. by rewrite Hr.
      * unfold row_credit, row_recall, row_precision, row_top1. simpl.
        split; [|split; [apply BuilderFacts.qdiv_zero | reflexivity]].
        destruct (row_truth r) as [|g gs]; [reflexivity|].
        cbn [out_hits]. rewrite filter_true_all_false. apply BuilderFacts.qdiv_zero.
Qed.

Definition demo_table : gmap string item :=
  <["wings" := "Wings"]> (<["fries" := "Fries"]> ∅).

Definition demo_rows : list test_row :=
  [mk_row ["NonexistentItem"] ["Fries"]; mk_row ["WINGS"] ["Fries"]].

Lemma batch_processes_every_row_witness :
  demo_rows !! 0%nat = Some (mk_row ["NonexistentItem"] ["Fries"]) /\
  normalize_user_items ["NonexistentItem"] ["wings"; "fries"] demo_table = [] /\
  (batch_predict [] (1 # 10) ∅ [("Wings", Main); ("Fries", Side)] [] []
     ["wings"; "fries"] demo_table demo_rows).1 !! 0%nat
  = Some (mk_out [] [] [false]).
Proof.
  assert (demo_rows !! 0%nat = Some (mk_row ["NonexistentItem"] ["Fries"])) as H1
    by reflexivity.
  assert (normalize_user_items ["NonexistentItem"] ["wings"; "fries"] demo_table = []) as H2
    by (vm_compute; reflexivity).
  split; [exact H1|]. split; [exact H2|].
  exact (proj1 (proj2 (proj2 (batch_processes_every_row [] (1 # 10) ∅
                  [("Wings", Main); ("Fries", Side)] [] [] ["wings"; "fries"] demo_table
                  demo_rows)) 0%nat _ H1 H2)).
Defined.

End BatchClaims.

(** ** [ui_components.py] *)

Module UIFacts.
Import PyStr UI.

Lemma lower_char_idem (c : ascii) : lower_char (lower_char c) = lower_char c.
Proof.
  destruct c as [b0 b1 b2 b3 b4 b5 b6 b7].
  destruct b0, b1, b2, b3, b4, b5, b6, b7; reflexivity.
Qed.

Lemma lower_idem (s : string) : lower (lower s) = lower s.
Proof.
  induction s as [|c s IH]; simpl; [done|]. by rewrite lower_char_idem, IH.
Qed.

Lemma slice_upto_nat {A} (l : list A) (n : nat) :
  slice_upto l (Z.of_nat n) = take (Nat.min n (length l)) l.
Proof.
  unfold slice_upto. rewrite (proj2 (Z.leb_le 0 (Z.of_nat n))) by lia.
  rewrite Nat2Z.id. destruct (Nat.le_ge_cases n (length l)).
  - rewrite Nat.min_l by lia. done.
  - rewrite Nat.min_r, !take_ge by lia. done.
Qed.

Lemma slice_upto_neg {A} (l : list A) (n : nat) :
  slice_upto l (- Z.of_nat (S n)) = take (length l - S n) l.
Proof.
  unfold slice_upto. rewrite (proj2 (Z.leb_gt 0 _)) by lia.
  f_equal. lia.
Qed.

Lemma topbar_badges_markup (items : list string) (limit : Z) :
  topbar_badges items limit = badges_markup (slice_upto items limit).
Proof.
  unfold topbar_badges, badges_markup. destruct (slice_upto items limit); done.
Qed.

End UIFacts.

Module UIClaims.
Import PyStr UI UIFacts.

(** C8: [icon_for_item] is a total function of the name that returns the
    icon of the first matching keyword group in the fixed order wing;
    fries/fry; dip/sauce/ranch; burger/sandwich; corn; drink/cola/juice,
    and the generic dish icon when none matches; it ignores case
    ([icon_for_item name = icon_for_item (name.lower())]), and a name with
    both "wing" and "fries" gets the wing icon. *)
Theorem icon_for_item_priority_case_insensitive :
  (forall name : string, icon_for_item name = icon_by_rules name) /\
  (forall name : string, icon_for_item name = icon_for_item (lower name)) /\
  icon_for_item "Buffalo WINGS with Fries" = icon_wing.
Proof.
  split; [|split].
  - intros name. unfold icon_for_item, icon_by_rules, icon_rules.
    generalize (lower name) as n. intros n. cbn [List.find existsb fst snd].
    repeat match goal with
           | |- context [contains ?k n] => destruct (contains k n)
           end; reflexivity.
  - intros name. unfold icon_for_item. by rewrite lower_idem.
  - vm_compute. reflexivity.
Qed.

(** C10, as the code has it: [topbar_badges(items, limit)] shows the
    Python slice [items[:limit]] in input order and emits no markup when
    it is empty. For a limit n >= 0 that is the first min(n, len(items))
    items; for a negative limit -(n+1) it is every item but the last n+1. *)
Theorem topbar_badges_shows_slice :
  (forall (items : list string) (limit : Z),
     topbar_badges items limit = badges_markup (slice_upto items limit)) /\
  (forall (items : list string) (n : nat),
     topbar_badges items (Z.of_nat n) = badges_markup (take (Nat.min n (length items)) items)) /\
  (forall (items : list string) (n : nat),
     topbar_badges items (- Z.of_nat (S n)) = badges_markup (take (length items - S n) items)).
Proof.
  split; [|split].
  - apply topbar_badges_markup.
  - intros items n. by rewrite topbar_badges_markup, slice_upto_nat.
  - intros items n. by rewrite topbar_badges_markup, slice_upto_neg.
Qed.

(** C10 as worded fails for a negative limit: with [limit = -1] on two
    items the first min(-1, 2) items are none, so the claim predicts no
    markup, but the code shows the first item. *)
Lemma topbar_badges_negative_limit_counterexample :
  topbar_badges ["Wings"; "Fries"] (-1)
  <> badges_markup (take (Z.to_nat (Z.min (-1) (Z.of_nat (length ["Wings"; "Fries"]))))
                      ["Wings"; "Fries"]).
Proof. vm_compute. discriminate. Qed.

End UIClaims.

(** ** [ui_components.py]: further properties *)

Module UIExtraFacts.
Import PyStr UI UIFacts.

Lemma lower_app (s t : string) : lower (s ++ t) = lower s ++ lower t.
Proof. induction s as [|c s IH]; simpl; [done|]. by rewrite IH. Qed.

Lemma starts_with_app (k h t : string) :
  starts_with k h = true -> starts_with k (h ++ t) = true.
Proof.
  revert h. induction k as [|c k IH]; intros h H; [done|].
  destruct h as [|d h]; simpl in *; [discriminate|].
  apply andb_prop in H as [H1 H2]. by rewrite H1, (IH h H2).
Qed.

Lemma contains_app_r (k h t : string) :
  contains k h = true -> contains k (h ++ t) = true.
Proof.
  induction h as [|d h IH]; intros H.
  - destruct k; [destruct t; reflexivity|]. simpl in H. discriminate.
  - change (String d h ++ t) with (String d (h ++ t)).
    cbn [contains] in H |- *. apply orb_prop in H as [H|H].
    + pose proof (starts_with_app _ _ t H) as H'.
      change (starts_with k (String d (h ++ t)) = true) in H'. by rewrite H'.
    + rewrite (IH H). apply orb_true_r.
Qed.

Lemma contains_app_l (k p h : string) :
  contains k h = true -> contains k (p ++ h) = true.
Proof.
  induction p as [|d p IH]; intros H; [done|].
  change (String d p ++ h) with (String d (p ++ h)).
  cbn [contains]. rewrite (IH H). apply orb_true_r.
Qed.

Lemma icon_wing_iff (n : string) :
  icon_for_item n = icon_wing <-> contains "wing" (lower n) = true.
Proof.
  unfold icon_for_item. generalize (lower n) as m. intros m.
  destruct (contains "wing" m); split; intros H; try done.
  repeat match goal with
         | H : context [if ?b then _ else _] |- _ => destruct b
         end; vm_compute in H; discriminate.
Qed.

Lemma length_topbar (items : list string) (limit : Z) :
  length (topbar_badges items limit)
  = match slice_upto items limit with [] => 0 | l => length l + 2 end%nat.
Proof.
  unfold topbar_badges. destruct (slice_upto items limit) as [|x l]; [done|].
  cbn [length]. rewrite length_app, length_map. simpl. lia.
Qed.

End UIExtraFacts.

Module UIExtra.
Import PyStr UI UIFacts UIExtraFacts.

(** A name that gets the wing icon keeps it whatever text is added before
    or after it: no other keyword can override "wing". *)
Theorem icon_wing_stable_under_extension :
  forall (name prefix suffix : string),
    icon_for_item name = icon_wing ->
    icon_for_item (prefix ++ name ++ suffix) = icon_wing.
Proof.
  intros n p s H. apply icon_wing_iff in H. apply icon_wing_iff.
  rewrite !lower_app. apply contains_app_l, contains_app_r, H.
Qed.

Lemma icon_wing_stable_under_extension_witness :
  icon_for_item "Wings" = icon_wing /\
  icon_for_item ("Fries and " ++ "Wings" ++ " with Ranch") = icon_wing.
Proof.
  assert (icon_for_item "Wings" = icon_wing) as H by (vm_compute; reflexivity).
  split; [exact H|]. exact (icon_wing_stable_under_extension "Wings" _ _ H).
Defined.

(** With a limit [k >= 0], the badge bar depends only on the first [k]
    items (items past the limit never change it), and it makes no
    markdown call when it shows nothing, otherwise one per shown item
    plus the opening and closing ones: at most [k + 2] calls. *)
Theorem topbar_badges_prefix_and_size :
  forall (items : list string) (k : nat),
    topbar_badges items (Z.of_nat k) = topbar_badges (take k items) (Z.of_nat k) /\
    length (topbar_badges items (Z.of_nat k))
    = (if Nat.min k (length items) =? 0 then 0 else Nat.min k (length items) + 2)%nat /\
    (length (topbar_badges items (Z.of_nat k)) <= k + 2)%nat.
Proof.
  intros items k.
  assert (length (topbar_badges items (Z.of_nat k))
    = (if Nat.min k (length items) =? 0 then 0 else Nat.min k (length items) + 2)%nat) as E.
  { rewrite length_topbar, slice_upto_nat.
    destruct (take (Nat.min k (length items)) items) as [|x l] eqn:Ht.
    - apply (f_equal length) in Ht. rewrite length_take in Ht. simpl in Ht.
      rewrite Nat.min_l in Ht by lia. rewrite Ht. done.
    - rewrite <- Ht, length_take, Nat.min_l by lia.
      apply (f_equal length) in Ht. rewrite length_take in Ht. simpl in Ht.
      rewrite Nat.min_l in Ht by lia. rewrite Ht. done. }
  split; [|split; [exact E|]].
  - rewrite !topbar_badges_markup, !slice_upto_nat, length_take, take_take. f_equal. f_equal.
    lia.
  - rewrite E. destruct (Nat.eqb_spec (Nat.min k (length items)) 0); lia.
Qed.

End UIExtra.

(** ** The recommendation cards *)

Module PageExtra.
Import Engine Recommender Page PageFacts Obs.

Lemma render_cards_log it idx recs :
  1 <= idx -> idx - 1 + length recs <= 3 ->
  (render_cards it [0; 1; 2] idx recs).1
  = map (fun p => EvCard (p.1 - 1) p.1 p.2.1 p.2.2 (category_name (type_of it p.2.1)))
        (zip (seq idx (length recs)) recs).
Proof.
  revert idx. induction recs as [|[x score] recs IH]; intros idx H1 H2; cbn [render_cards]; [done|].
  cbn [length] in H2.
  assert ([0; 1; 2] !! (idx - 1) = Some (idx - 1)) as Hc
    by (destruct idx as [|[|[|[|i]]]]; simpl in *; try reflexivity; lia).
  rewrite bind_log. unfold py_index. rewrite Hc. unfold mret, st_ret. cbn [fst snd].
  rewrite bind_log. unfold emit. cbn [fst snd]. rewrite IH by lia.
  simpl. done.
Qed.

(** Drawing at most three recommendations, the page emits the header,
    the three columns, then for the k-th recommendation (k = 1, 2, 3) one
    card of rank k in column k - 1 with that item, score and type; so the
    cards carry the medals 🥇, 🥈, 🥉 in this order. *)
Theorem cards_ranked_in_columns :
  forall (item_type : item_types) (recs : list (item * Q)),
    length recs <= 3 ->
    (render_recommendations item_type recs).1
    = EvMarkdown "<h3 class='page-h3'>Top 3 Recommendations</h3>" :: EvColumns 3 ::
      map (fun p => EvCard (p.1 - 1) p.1 p.2.1 p.2.2 (category_name (type_of item_type p.2.1)))
          (with_ranks recs) /\
    card_medals (render_recommendations item_type recs).1
    = take (length recs) ["🥇"; "🥈"; "🥉"].
Proof.
  intros it recs Hl.
  assert ((render_recommendations it recs).1
    = EvMarkdown "<h3 class='page-h3'>Top 3 Recommendations</h3>" :: EvColumns 3 ::
      map (fun p => EvCard (p.1 - 1) p.1 p.2.1 p.2.2 (category_name (type_of it p.2.1)))
          (with_ranks recs)) as E.
  { unfold render_recommendations. rewrite !bind_log. unfold emit. cbn [fst snd].
    rewrite render_cards_log by lia. done. }
  split; [exact E|]. rewrite E.
  destruct recs as [|a [|b [|c [|d recs]]]]; simpl in Hl |- *; try lia; reflexivity.
Qed.

Lemma cards_ranked_in_columns_witness :
  length [("Fries", 1#2); ("Ranch", 1#3)] <= 3 /\
  card_medals (render_recommendations [("Fries", Side); ("Ranch", Dip)]
                 [("Fries", 1#2); ("Ranch", 1#3)]).1 = ["🥇"; "🥈"].
Proof.
  assert (length [("Fries", 1#2); ("Ranch", 1#3)] <= 3) as H by (simpl; lia).
  split; [exact H|].
  exact (proj2 (cards_ranked_in_columns [("Fries", Side); ("Ranch", Dip)] _ H)).
Defined.

End PageExtra.

(** ** [streamlit_app.py]: the pages *)

Module AppPages.
Import Engine Recommender Cards App Obs.

(** Without saved artifacts, the menu, batch and metrics pages show the
    title, their heading and the "Artifacts not found" warning, and stop
    there: no menu, no button, no batch run, no chart. *)
Theorem pages_without_artifacts :
  forall (blacklist : list item) (bias : Q) (art_dir : string)
         (selected : list string) (clicked : bool)
         (test_csv : string + list Batch.test_row),
    menu_page blacklist bias None selected clicked
    = ([EvMd brand_title_html; EvMd "<h2 class='page-h2'>Menu & Recommendations</h2>";
        EvWarning missing_msg], inr tt) /\
    batch_page blacklist bias art_dir None clicked test_csv
    = ([EvMd brand_title_html; EvMd "<h2 class='page-h2'>Batch Predict (CSV)</h2>";
        EvWarning missing_msg], inr tt) /\
    metrics_page None
    = ([EvMd brand_title_html; EvMd "<h2 class='page-h2'>Metrics & Explore</h2>";
        EvWarning missing_msg], inr tt).
Proof. intros. split; [|split]; reflexivity. Qed.


(** The start page: if the CSV files cannot be loaded it shows the error
    and stops the script before any metric; otherwise it shows the four
    metrics Orders, Customers, Items, Test Rows with the table sizes
    written with thousands separators, and Items always reads "138",
    whatever the data. *)
Theorem start_page_outcomes :
  (forall e : string,
     (start_page (inl e)).2 = inl StopException /\
     metrics_of (start_page (inl e)).1 = [] /\
     last (start_page (inl e)).1 = Some (EvError ("CSV load error: " ++ e))) /\
  (forall n_order n_customer n_test : nat,
     (start_page (inr (n_order, n_customer, n_test))).2 = inr tt /\
     metrics_of (start_page (inr (n_order, n_customer, n_test))).1
     = [("Orders", fmt_thousands n_order); ("Customers", fmt_thousands n_customer);
        ("Items", "138"); ("Test Rows", fmt_thousands n_test)]).
Proof. split; intros; repeat split; reflexivity. Qed.

(** Every option of the sidebar radio opens its own page: the seven
    options reach the seven pages, in order. *)
Theorem router_reaches_every_page :
  map route sidebar_options
  = [StartPage; BuildModelPage; MenuRecoPage; BatchPage; MetricsPage; WorkflowPage; AboutPage].
Proof. vm_compute. reflexivity. Qed.

End AppPages.

(** ** [streamlit_app.py]: the lookup tables of [prepare_artifacts] *)

Module TableFacts.
Import PyStr Engine Recommender App Obs UIFacts.

Lemma map_fmap_eq {A B} (f : A -> B) (l : list A) : map f l = f <$> l.
Proof. induction l; simpl; [done|]. by rewrite IHl. Qed.

Section Dict.
Context {K V : Type} `{EqDecision K}.

Lemma dict_set_keys (k : K) (v : V) (d : list (K * V)) :
  map fst (dict_set k v d)
  = if decide (k ∈ map fst d) then map fst d else app (map fst d) [k].
Proof.
  induction d as [|[k' v'] d IH]; simpl.
  - try rewrite decide_False by set_solver. done.
  - destruct (decide (k = k')) as [->|Hne]; simpl.
    + rewrite decide_True by set_solver. done.
    + rewrite IH. destruct (decide (k ∈ map fst d)).
      * rewrite decide_True by set_solver. done.
      * rewrite decide_False by set_solver. done.
Qed.

Lemma dict_set_assoc (k k' : K) (v : V) (d : list (K * V)) :
  assoc k' (dict_set k v d) = if decide (k' = k) then Some v else assoc k' d.
Proof.
  induction d as [|[k1 v1] d IH]; simpl.
  - destruct (decide (k' = k)); done.
  - destruct (decide (k = k1)) as [->|Hne]; simpl.
    + destruct (decide (k' = k1)); done.
    + rewrite IH. destruct (decide (k' = k)) as [->|]; [|done].
      rewrite decide_False by done. done.
Qed.

Lemma dict_set_elem (k k' : K) (v v' : V) (d : list (K * V)) :
  (k', v') ∈ dict_set k v d -> (k', v') = (k, v) \/ (k', v') ∈ d.
Proof.
  induction d as [|[k1 v1] d IH]; simpl; intros H.
  - left. set_solver.
  - destruct (decide (k = k1)) as [->|Hne].
    + apply elem_of_cons in H as [H|H]; [by left|]. right. set_solver.
    + apply elem_of_cons in H as [H|H]; [right; set_solver|].
      destruct (IH H); [by left|]. right. set_solver.
Qed.

Lemma assoc_Some (k : K) (v : V) (d : list (K * V)) :
  assoc k d = Some v -> (k, v) ∈ d.
Proof.
  induction d as [|[k1 v1] d IH]; simpl; [discriminate|].
  destruct (decide (k = k1)) as [->|]; intros H.
  - injection H as <-. set_solver.
  - set_solver.
Qed.

Lemma assoc_None (k : K) (d : list (K * V)) :
  assoc k d = None -> k ∉ map fst d.
Proof.
  induction d as [|[k1 v1] d IH]; simpl; [set_solver|].
  destruct (decide (k = k1)); [discriminate|]. set_solver.
Qed.

End Dict.

Lemma list_to_map_assoc (d : list (string * item)) (k : string) :
  NoDup (map fst d) -> (list_to_map d : gmap string item) !! k = assoc k d.
Proof.
  intros Hnd. rewrite map_fmap_eq in Hnd.
  destruct (assoc k d) as [v|] eqn:E.
  - apply elem_of_list_to_map_1; [done|]. by apply assoc_Some.
  - apply not_elem_of_list_to_map_1. apply assoc_None in E. by rewrite <- map_fmap_eq.
Qed.

Lemma known_lower_snoc (l : list item) (x : item) :
  known_lower (app l [x]) = dict_set (lower x) x (known_lower l).
Proof. unfold known_lower. by rewrite foldl_app. Qed.

Lemma known_lower_assoc (l : list item) (k : string) :
  assoc k (known_lower l) = last (filter (fun i => lower i = k) l).
Proof.
  induction l as [|x l IH] using rev_ind; [done|].
  rewrite known_lower_snoc, dict_set_assoc, filter_app, IH. simpl.
  destruct (decide (k = lower x)) as [->|Hne].
  - rewrite filter_cons_True, filter_nil by done. symmetry. apply last_snoc.
  - rewrite filter_cons_False by congruence. by rewrite filter_nil, app_nil_r.
Qed.

Lemma known_lower_keys (l : list item) :
  map fst (known_lower l) = dedup_first (map lower l).
Proof.
  induction l as [|x l IH] using rev_ind; [done|].
  rewrite known_lower_snoc, dict_set_keys, IH, map_app. unfold dedup_first.
  rewrite foldl_app. done.
Qed.

Lemma known_lower_nodup (l : list item) : NoDup (map fst (known_lower l)).
Proof.
  induction l as [|x l IH] using rev_ind; [constructor|].
  rewrite known_lower_snoc, dict_set_keys.
  destruct (decide (lower x ∈ map fst (known_lower l))); [done|].
  apply NoDup_app. split; [done|]. split; [|apply NoDup_singleton].
  intros y Hy Hy'. set_solver.
Qed.

Lemma known_lower_entries (l : list item) (k : string) (v : item) :
  (k, v) ∈ known_lower l -> k = lower v /\ v ∈ l.
Proof.
  induction l as [|x l IH] using rev_ind; [set_solver|].
  rewrite known_lower_snoc. intros H. apply dict_set_elem in H as [H|H].
  - injection H as -> ->. set_solver.
  - destruct (IH H). set_solver.
Qed.

Lemma known_lower_lookup (l : list item) (k : string) :
  lower_to_orig l !! k = last (filter (fun i => lower i = k) l).
Proof.
  unfold lower_to_orig. rewrite list_to_map_assoc by apply known_lower_nodup.
  apply known_lower_assoc.
Qed.

End TableFacts.

Module TableClaims.
Import PyStr Engine Recommender App Obs UIFacts TableFacts.

(** The key list [known_items_lower] of the artifact lists each lowercase
    form of a catalog item exactly once, in the order of first appearance
    in the catalog, and every key is already lowercase. *)
Theorem known_items_lower_keys :
  forall (item_type : item_types) (item_feat : feat_table) (top_by_type : top_table)
         (all_items : list item) (co_norm : matrix),
    Page.art_known_items_lower (prepare_artifacts item_type item_feat top_by_type all_items co_norm)
    = dedup_first (map lower all_items) /\
    NoDup (Page.art_known_items_lower
             (prepare_artifacts item_type item_feat top_by_type all_items co_norm)) /\
    Forall (fun k => lower k = k)
      (Page.art_known_items_lower
         (prepare_artifacts item_type item_feat top_by_type all_items co_norm)).
Proof.
  intros it feat top all co. cbn [prepare_artifacts Page.art_known_items_lower].
  unfold known_items_lower. split; [apply known_lower_keys|]. split; [apply known_lower_nodup|].
  apply Forall_forall. intros k Hk. apply list_elem_of_In in Hk.
  apply in_map_iff in Hk as [[k' v] [Hk Hkv]]. simpl in Hk. subst k'.
  apply list_elem_of_In in Hkv. apply known_lower_entries in Hkv as [-> _]. apply lower_idem.
Qed.

(** The table [lower_to_orig] of the artifact maps a lowercase form to
    the LAST catalog item with that form (a later item with the same
    lowercase name overwrites an earlier one), and a string that is no
    item's lowercase form to nothing. *)
Theorem lower_to_orig_last_wins :
  forall (item_type : item_types) (item_feat : feat_table) (top_by_type : top_table)
         (all_items : list item) (co_norm : matrix) (k : string),
    Page.art_lower_to_orig (prepare_artifacts item_type item_feat top_by_type all_items co_norm) !! k
    = last (filter (fun i => lower i = k) all_items).
Proof. intros. apply known_lower_lookup. Qed.

(** The menu options [list(lower_to_orig.values())] round-trip: each
    option is found again under its own lowercase form; no two options
    differ only by case; and every catalog item is represented by an
    option with the same lowercase form. *)
Theorem menu_options_round_trip :
  forall all_items : list item,
    (forall o, o ∈ menu_options all_items -> lower_to_orig all_items !! lower o = Some o) /\
    NoDup (map lower (menu_options all_items)) /\
    (forall i, i ∈ all_items -> exists o, o ∈ menu_options all_items /\ lower o = lower i).
Proof.
  intros l.
  assert (forall o, o ∈ menu_options l -> (lower o, o) ∈ known_lower l) as Hent.
  { intros o Ho. unfold menu_options in Ho. apply list_elem_of_In in Ho.
    apply in_map_iff in Ho as [[k v] [Hv Hin]]. simpl in Hv. subst v.
    apply list_elem_of_In in Hin. pose proof Hin as Hin'.
    apply known_lower_entries in Hin' as [-> _]. exact Hin. }
  split; [|split].
  - intros o Ho. unfold lower_to_orig.
    apply elem_of_list_to_map_1; [rewrite <- map_fmap_eq; apply known_lower_nodup|].
    by apply Hent.
  - assert (map lower (menu_options l) = map fst (known_lower l)) as E.
    { unfold menu_options. rewrite map_map. apply map_ext_in. intros [k v] Hkv.
      apply list_elem_of_In in Hkv. apply known_lower_entries in Hkv as [-> _]. done. }
    rewrite E. apply known_lower_nodup.
  - intros i Hi. pose proof (known_lower_assoc l (lower i)) as E.
    destruct (last (filter (fun j => lower j = lower i) l)) as [v|] eqn:Hlast.
    + apply assoc_Some in E. exists v. split.
      * unfold menu_options. apply list_elem_of_In, in_map_iff. exists (lower i, v).
        split; [done|]. by apply list_elem_of_In.
      * apply known_lower_entries in E as [E _]. done.
    + apply last_None in Hlast. exfalso.
      assert (i ∈ filter (fun j => lower j = lower i) l) as Hf
        by (apply list_elem_of_filter; done).
      rewrite Hlast in Hf. set_solver.
Qed.

Lemma menu_options_round_trip_witness :
  (forall o, o ∈ menu_options ["Wings"; "Fries"; "WINGS"] ->
     lower_to_orig ["Wings"; "Fries"; "WINGS"] !! lower o = Some o) /\
  menu_options ["Wings"; "Fries"; "WINGS"] = ["WINGS"; "Fries"].
Proof.
  split; [exact (proj1 (menu_options_round_trip ["Wings"; "Fries"; "WINGS"]))|].
  vm_compute. reflexivity.
Defined.

End TableClaims.

(** ** [streamlit_app.py]: the metrics page and the number format *)

Module MetricsFacts.
Import PyStr Engine Recommender Cards App Obs.

Lemma run_bind_log {A B} (m : run A) (k : A -> run B) :
  (m ≫= k).1 = app m.1 (match m.2 with inr a => (k a).1 | inl _ => [] end).
Proof.
  destruct m as [l [e|a]]; simpl.
  - by rewrite app_nil_r.
  - unfold mbind, run_bind. by destruct (k a).
Qed.

Lemma emit_seq_log {B} (e : ev) (k : unit -> run B) :
  (emit e ≫= k).1 = e :: (k tt).1.
Proof. unfold mbind, run_bind, emit. simpl. by destruct (k tt). Qed.

Lemma ret_seq_log {A B} (a : A) (k : A -> run B) :
  (mret a ≫= k).1 = (k a).1.
Proof. unfold mbind, run_bind, mret, run_ret. simpl. by destruct (k a). Qed.

Lemma run_emit_all_log (es : list ev) : (emit_all es).1 = es.
Proof.
  induction es as [|e es IH]; cbn [emit_all]; [done|].
  rewrite run_bind_log, IH. done.
Qed.

Section Counter.
Context {K : Type} `{EqDecision K}.

Lemma counter_snoc (xs : list K) (x : K) :
  counter (app xs [x]) = counter_add x (counter xs).
Proof. unfold counter. by rewrite foldl_app. Qed.

Lemma counter_add_assoc (x k : K) (c : list (K * nat)) :
  assoc k (counter_add x c)
  = if decide (k = x) then Some (S (default 0 (assoc k c))) else assoc k c.
Proof.
  induction c as [|[k1 n1] c IH]; simpl.
  - destruct (decide (k = x)); done.
  - destruct (decide (x = k1)) as [->|Hne]; simpl.
    + destruct (decide (k = k1)); done.
    + rewrite IH. destruct (decide (k = x)) as [->|]; [|done].
      rewrite !decide_False by done. done.
Qed.

Lemma counter_add_keys (x : K) (c : list (K * nat)) :
  map fst (counter_add x c)
  = if decide (x ∈ map fst c) then map fst c else app (map fst c) [x].
Proof.
  induction c as [|[k1 n1] c IH]; simpl.
  - try rewrite decide_False by set_solver. done.
  - destruct (decide (x = k1)) as [->|Hne]; simpl.
    + rewrite decide_True by set_solver. done.
    + rewrite IH. destruct (decide (x ∈ map fst c)).
      * rewrite decide_True by set_solver. done.
      * rewrite decide_False by set_solver. done.
Qed.

Lemma counter_add_sum (x : K) (c : list (K * nat)) :
  sum_list_with snd (counter_add x c) = S (sum_list_with snd c).
Proof.
  induction c as [|[k1 n1] c IH]; simpl; [done|].
  destruct (decide (x = k1)); simpl; [done|]. rewrite IH. lia.
Qed.

Lemma counter_assoc (xs : list K) (k : K) :
  default 0 (assoc k (counter xs)) = length (filter (fun y => y = k) xs).
Proof.
  induction xs as [|x xs IH] using rev_ind; [done|].
  rewrite counter_snoc, counter_add_assoc, filter_app, length_app. simpl.
  destruct (decide (k = x)) as [->|Hne].
  - rewrite filter_cons_True by done. simpl. rewrite IH. lia.
  - rewrite filter_cons_False by congruence. simpl. rewrite IH. lia.
Qed.

Lemma counter_keys (xs : list K) : map fst (counter xs) = dedup_first xs.
Proof.
  induction xs as [|x xs IH] using rev_ind; [done|].
  rewrite counter_snoc, counter_add_keys, IH. unfold dedup_first. by rewrite foldl_app.
Qed.

Lemma counter_nodup (xs : list K) : NoDup (map fst (counter xs)).
Proof.
  induction xs as [|x xs IH] using rev_ind; [constructor|].
  rewrite counter_snoc, counter_add_keys.
  destruct (decide (x ∈ map fst (counter xs))); [done|].
  apply NoDup_app. split; [done|]. split; [|apply NoDup_singleton].
  intros y Hy Hy'. set_solver.
Qed.

Lemma counter_sum (xs : list K) : sum_list_with snd (counter xs) = length xs.
Proof.
  induction xs as [|x xs IH] using rev_ind; [done|].
  rewrite counter_snoc, counter_add_sum, IH, length_app. simpl. lia.
Qed.

End Counter.

Lemma category_name_inj (s t : category) : category_name s = category_name t -> s = t.
Proof. destruct s, t; simpl; congruence. Qed.

Lemma count_type_names (it : item_types) (t : category) :
  length (filter (fun s => s = category_name t) (map (fun p => category_name p.2) it))
  = length (filter (fun p => p.2 = t) it).
Proof.
  induction it as [|[x s] it IH]; [done|]. cbn [map].
  destruct (decide (s = t)) as [->|Hne].
  - rewrite !filter_cons_True by done. simpl. by rewrite IH.
  - rewrite filter_cons_False by (simpl; intros E; apply Hne, category_name_inj, E).
    rewrite filter_cons_False by (simpl; exact Hne). exact IH.
Qed.

Lemma metrics_page_log (a : Page.artifact) :
  (metrics_page (Some a)).1
  = app [EvMd brand_title_html; EvMd "<h2 class='page-h2'>Metrics & Explore</h2>";
         EvBarChart (counter (map (fun p => category_name p.2) (Page.art_item_type a)));
         EvMd "<h4 class='page-h4'>Top Items by Type</h4>"; EvColumns 4]
        (concat (imap (type_column (Page.art_top_by_type a)) listed_types)).
Proof.
  unfold metrics_page, app_brand_title, load_or_build_artifacts.
  repeat (first [rewrite emit_seq_log | rewrite ret_seq_log]; cbv beta iota).
  rewrite run_emit_all_log. done.
Qed.

Lemma writes_in_app (i : nat) (l1 l2 : list ev) :
  writes_in i (app l1 l2) = app (writes_in i l1) (writes_in i l2).
Proof. unfold writes_in. apply omap_app. Qed.

Lemma writes_in_column (i c : nat) (top : top_table) (t : category) :
  writes_in i (type_column top c t)
  = if (c =? i)%nat then map type_line (take 130 (default [] (assoc t top))) else [].
Proof.
  unfold type_column. generalize (take 130 (default [] (assoc t top))) as l. intros l.
  induction l as [|p l IH]; simpl in *; destruct (c =? i)%nat; simpl in *; try done.
  - f_equal. exact IH.
Qed.

Lemma group3_spec (r : list ascii) :
  r <> [] ->
  exists cs lst, group3 r = join_groups (app cs [lst]) /\ concat (app cs [lst]) = r /\
    Forall (fun g => length g = 3) cs /\ 1 <= length lst <= 3.
Proof.
  induction r as [r IH] using (induction_ltof1 _ (@length _)); unfold ltof in IH.
  intros Hne.
  destruct r as [|a [|b [|c [|d rest]]]]; [done| | | |].
  - exists [], [a]. repeat split; simpl; auto; lia.
  - exists [], [a; b]. repeat split; simpl; auto; lia.
  - exists [], [a; b; c]. repeat split; simpl; auto; lia.
  - destruct (IH (d :: rest)) as (cs & lst & E & C & F & L); [simpl; lia|done|].
    exists ([a; b; c] :: cs), lst. split; [|split; [|split]].
    + change (group3 (a :: b :: c :: d :: rest))
        with (a :: b :: c :: ","%char :: group3 (d :: rest)).
      rewrite E. cbn [app].
      destruct cs; simpl; reflexivity.
    + simpl. rewrite C. done.
    + constructor; [done|exact F].
    + exact L.
Qed.

Lemma join_groups_cons (g : list ascii) (gs : list (list ascii)) :
  gs <> [] -> join_groups (g :: gs) = app g (","%char :: join_groups gs).
Proof. destruct gs; [done|reflexivity]. Qed.

Lemma join_groups_snoc (gs : list (list ascii)) (g : list ascii) :
  gs <> [] -> join_groups (app gs [g]) = app (join_groups gs) (","%char :: g).
Proof.
  induction gs as [|h gs IH]; intros Hne; [done|].
  destruct gs as [|h' gs].
  - reflexivity.
  - cbn [app]. rewrite join_groups_cons by (destruct gs; discriminate).
    change (h' :: app gs [g]) with (app (h' :: gs) [g]).
    rewrite IH by discriminate. rewrite (join_groups_cons h) by discriminate.
    by rewrite <- app_assoc.
Qed.

Lemma rev_join_groups (gs : list (list ascii)) :
  rev (join_groups gs) = join_groups (rev (map (@rev ascii) gs)).
Proof.
  induction gs as [|g gs IH]; [done|].
  destruct gs as [|g' gs].
  - simpl. done.
  - rewrite join_groups_cons by discriminate. rewrite rev_app_distr.
    change (rev (","%char :: join_groups (g' :: gs)))
      with (app (rev (join_groups (g' :: gs))) [","%char]).
    rewrite IH.
    change (rev (map (@rev ascii) (g :: g' :: gs)))
      with (app (rev (map (@rev ascii) (g' :: gs))) [rev g]).
    rewrite join_groups_snoc.
    + by rewrite <- app_assoc.
    + intros E. apply (f_equal length) in E. rewrite length_rev, length_map in E.
      simpl in E. lia.
Qed.

Lemma concat_rev_map_rev (gs : list (list ascii)) :
  concat (rev (map (@rev ascii) gs)) = rev (concat gs).
Proof.
  induction gs as [|g gs IH]; [done|]. cbn [map rev concat].
  rewrite concat_app, IH, rev_app_distr. simpl. by rewrite app_nil_r.
Qed.

Lemma py_str_nat_nonempty (n : nat) : list_ascii_of_string (py_str_nat n) <> [].
Proof.
  unfold py_str_nat. cbn [dec_aux].
  destruct (n <? 10)%nat.
  - discriminate.
  - assert (forall f m acc, acc <> EmptyString -> dec_aux f m acc <> EmptyString) as Hd.
    { induction f as [|f IHf]; intros m acc Hacc; cbn [dec_aux]; [done|].
      destruct (m <? 10)%nat; [discriminate|]. apply IHf. discriminate. }
    intros E. apply (Hd n (n / 10) (String (ascii_of_nat (48 + n mod 10)) EmptyString));
      [discriminate|].
    destruct (dec_aux n (n / 10) _); [reflexivity|discriminate].
Qed.

End MetricsFacts.

Module MetricsClaims.
Import PyStr UI Engine Recommender Cards App Obs MetricsFacts.

(** The bar chart of the metrics page lists each item type of the
    catalog once, in first-seen order, with the number of catalog items
    of that type; the counts add up to the catalog size. *)
Theorem metrics_bar_chart_counts_types :
  forall a : Page.artifact,
    exists rows : list (string * nat),
      (metrics_page (Some a)).1 !! 2%nat = Some (EvBarChart rows) /\
      map fst rows = dedup_first (map (fun p => category_name p.2) (Page.art_item_type a)) /\
      NoDup (map fst rows) /\
      (forall t : category,
         default 0 (assoc (category_name t) rows)
         = length (filter (fun p => p.2 = t) (Page.art_item_type a))) /\
      sum_list_with snd rows = length (Page.art_item_type a).
Proof.
  intros a. exists (counter (map (fun p => category_name p.2) (Page.art_item_type a))).
  split; [|split; [|split; [|split]]].
  - rewrite metrics_page_log. reflexivity.
  - apply counter_keys.
  - apply counter_nodup.
  - intros t. rewrite counter_assoc. apply count_type_names.
  - rewrite counter_sum. apply length_map.
Qed.

(** The per-type section of the metrics page: column i (i = 0..3) lists,
    one line each, the first 130 entries (or fewer) of the ranking of
    main, side, dip, drink items respectively, in ranking order; no
    other column exists, so dessert and other items are never listed. *)
Theorem metrics_columns_list_top130 :
  forall (a : Page.artifact) (i : nat),
    writes_in i (metrics_page (Some a)).1
    = match listed_types !! i with
      | Some t => map type_line (take 130 (default [] (assoc t (Page.art_top_by_type a))))
      | None => []
      end /\
    (length (writes_in i (metrics_page (Some a)).1) <= 130)%nat.
Proof.
  intros a i.
  assert (writes_in i (metrics_page (Some a)).1
    = match listed_types !! i with
      | Some t => map type_line (take 130 (default [] (assoc t (Page.art_top_by_type a))))
      | None => []
      end) as E.
  { rewrite metrics_page_log, writes_in_app.
    change (concat (imap (type_column (Page.art_top_by_type a)) listed_types))
      with (app (type_column (Page.art_top_by_type a) 0 Main)
           (app (type_column (Page.art_top_by_type a) 1 Side)
           (app (type_column (Page.art_top_by_type a) 2 Dip)
           (app (type_column (Page.art_top_by_type a) 3 Drink) [])))).
    rewrite !writes_in_app, !writes_in_column.
    destruct i as [|[|[|[|i]]]]; simpl; rewrite ?app_nil_r; reflexivity. }
  split; [exact E|]. rewrite E.
  destruct (listed_types !! i); [|simpl; lia].
  rewrite length_map, length_take. lia.
Qed.

(** [f"{n:,}"]: the decimal digits of [n] cut into groups joined by
    commas, a leading group of one to three digits followed by groups of
    exactly three. *)
Theorem fmt_thousands_groups :
  forall n : nat,
    exists (g : list ascii) (gs : list (list ascii)),
      list_ascii_of_string (fmt_thousands n) = join_groups (g :: gs) /\
      concat (g :: gs) = list_ascii_of_string (py_str_nat n) /\
      1 <= length g <= 3 /\ Forall (fun x => length x = 3) gs.
Proof.
  intros n. unfold fmt_thousands. rewrite list_ascii_of_string_of_list_ascii.
  set (D := list_ascii_of_string (py_str_nat n)).
  assert (rev D <> []) as Hne.
  { intros E. apply (py_str_nat_nonempty n). fold D.
    apply (f_equal (@rev ascii)) in E. rewrite rev_involutive in E. exact E. }
  destruct (group3_spec (rev D) Hne) as (cs & lst & E & C & F & L).
  exists (rev lst), (rev (map (@rev ascii) cs)). split; [|split; [|split]].
  - rewrite E, rev_join_groups, map_app, rev_app_distr. reflexivity.
  - replace (rev lst :: rev (map (@rev ascii) cs)) with (rev (map (@rev ascii) (app cs [lst])))
      by (rewrite map_app, rev_app_distr; reflexivity).
    rewrite concat_rev_map_rev, C. apply rev_involutive.
  - rewrite length_rev. exact L.
  - apply Forall_rev, Forall_map. eapply Forall_impl; [exact F|].
    intros x Hx. rewrite length_rev. exact Hx.
Qed.

End MetricsClaims.
